(** * BigQuery cache processor: a shallow embedding of
      [airbyte/_processors/sql/bigquery.py] and its properties.

    Layout of the development:
    - [PyStr]          the Python [str] operations the module uses
                       ([lower], [startswith], [in], [replace], [join]);
    - [TypeConv]       [BigQueryTypeConverter] over a parent that returns;
    - [Processor]      [BigQuerySqlProcessor]: its per-instance fields, the
                       error/state monad its methods run in, the external
                       collaborators it calls, and the methods themselves;
    - [RaisingParent]  [BigQueryTypeConverter] over a parent that may raise;
    - [Mock]           concrete collaborators, used to run the methods;
    - the theorems.

    Strings are [String.string].  Identifiers are lowercased by [py_lower],
    which is [str.lower()] on ASCII text; statements that depend on what
    lowercasing does carry the hypothesis [is_ascii]. *)

From Stdlib Require Import Strings.String Strings.Ascii Lists.List Bool.Bool
  Arith.Arith Arith.PeanoNat micromega.Lia.
Import ListNotations.

Local Open Scope list_scope.
Local Open Scope string_scope.

(* ================================================================== *)
(** ** Python string operations *)
(* ================================================================== *)

Module PyStr.

(** [c.isupper()] for an ASCII character. *)
Definition is_upper (c : ascii) : bool :=
  Nat.leb 65 (nat_of_ascii c) && Nat.leb (nat_of_ascii c) 90.

Definition lower_char (c : ascii) : ascii :=
  if is_upper c then ascii_of_nat (nat_of_ascii c + 32) else c.

(** [s.lower()] *)
Fixpoint py_lower (s : string) : string :=
  match s with
  | EmptyString => EmptyString
  | String c r => String (lower_char c) (py_lower r)
  end.

(** [s.startswith(p)] *)
Definition py_startswith (s p : string) : bool := String.prefix p s.

(** [needle in hay] *)
Fixpoint py_in (needle hay : string) : bool :=
  if String.prefix needle hay then true
  else match hay with
       | EmptyString => false
       | String _ r => py_in needle r
       end.

(** Drop the first [n] characters: [s[n:]]. *)
Fixpoint py_drop (n : nat) (s : string) : string :=
  match n, s with
  | O, _ => s
  | S _, EmptyString => EmptyString
  | S k, String _ r => py_drop k r
  end.

(** Leftmost occurrence of a non-empty [old] in [s]: the text before it and
    the text after it. *)
Fixpoint find_first (old s : string) : option (string * string) :=
  if String.prefix old s then Some (EmptyString, py_drop (String.length old) s)
  else match s with
       | EmptyString => None
       | String c r =>
           match find_first old r with
           | Some (b, a) => Some (String c b, a)
           | None => None
           end
       end.

(** [s.replace("", new, count)]: [new] goes in front of each character and
    at the end, at most [count] times. *)
Fixpoint interleave (new : string) (count : nat) (s : string) : string :=
  match count with
  | O => s
  | S k =>
      new ++ match s with
             | EmptyString => EmptyString
             | String c r => String c (interleave new k r)
             end
  end.

Fixpoint replace_nonempty (old new : string) (count : nat) (s : string)
  : string :=
  match count with
  | O => s
  | S k =>
      match find_first old s with
      | None => s
      | Some (b, a) => b ++ new ++ replace_nonempty old new k a
      end
  end.

(** [s.replace(old, new, count)] for a non-negative [count]: the leftmost
    [count] non-overlapping occurrences of [old] are replaced. *)
Definition py_replace (s old new : string) (count : nat) : string :=
  match old with
  | EmptyString => interleave new count s
  | String _ _ => replace_nonempty old new count s
  end.

(** [sep.join(parts)] *)
Definition py_join (sep : string) (parts : list string) : string :=
  String.concat sep parts.







(** [s.count(c)] for a single character [c]. *)
Fixpoint count_char (c : ascii) (s : string) : nat :=
  match s with
  | EmptyString => 0
  | String d r => (if Ascii.eqb d c then 1 else 0) + count_char c r
  end.

End PyStr.

(* ================================================================== *)
(** ** [BigQueryTypeConverter] *)
(* ================================================================== *)

Module TypeConv.

(** A JSON-schema property definition, [dict[str, str | dict | list]]. *)
Local Unset Elimination Schemes.
Inductive json : Type :=
| JStr (s : string)
| JList (items : list json)
| JDict (entries : list (string * json)).
Local Set Elimination Schemes.

Definition ColumnTypeDescriptor : Type := list (string * json).

(** A sqlalchemy type object, as far as the converter inspects it: the name
    of its class ([sql_type.__class__.__name__]) and the names of the
    classes that class derives from (what [isinstance] looks through). *)
Record TypeEngine : Type := mkTypeEngine {
  class_name : string;
  bases : list string
}.

(** [isinstance(t, sqlalchemy.types.<cls>)] *)
Definition isinstance (t : TypeEngine) (cls : string) : bool :=
  String.eqb cls (class_name t) || existsb (String.eqb cls) (bases t).

(** The sqlalchemy classes of the generic mapping. *)
Definition sa_VARCHAR : TypeEngine := mkTypeEngine "VARCHAR" ["String"; "TypeEngine"].
Definition sa_BIGINT : TypeEngine :=
  mkTypeEngine "BIGINT" ["BigInteger"; "Integer"; "TypeEngine"].
Definition sa_DECIMAL : TypeEngine := mkTypeEngine "DECIMAL" ["Numeric"; "TypeEngine"].
Definition sa_BOOLEAN : TypeEngine := mkTypeEngine "BOOLEAN" ["Boolean"; "TypeEngine"].
Definition sa_JSON : TypeEngine := mkTypeEngine "JSON" ["TypeEngine"].

Section Converter.

(** [SQLTypeConverter.to_sql_type], the parent-class method reached through
    [super()]; it lives in [airbyte/types.py].  Here it is a call that
    returns; [RaisingParent.to_sql_type] below is the method over a parent
    call that may also raise. *)
Variable generic_to_sql_type : ColumnTypeDescriptor -> TypeEngine.

(** [BigQueryTypeConverter.get_string_type] *)
Definition get_string_type : string := "String".

(** [BigQueryTypeConverter.to_sql_type]; the value returned is a Python
    [str] in all three branches. *)
Definition to_sql_type (json_schema_property_def : ColumnTypeDescriptor)
  : string :=
  let sql_type := generic_to_sql_type json_schema_property_def in
  if isinstance sql_type "VARCHAR" then get_string_type
  else if isinstance sql_type "BIGINT" then "INT64"
  else class_name sql_type.

End Converter.

Fixpoint lookup (k : string) (d : ColumnTypeDescriptor) : option json :=
  match d with
  | [] => None
  | (k', v) :: r => if String.eqb k k' then Some v else lookup k r
  end.

(** Modelled from the spec: the dialect-neutral mapping of the parent
    converter ([airbyte/types.py], not among the sources), section 4.1:
    string-like kinds go to the generic string type, integer-like kinds to
    the generic wide integer, and anything unrecognised falls back to the
    generic string type. *)
Definition spec_generic_to_sql_type (d : ColumnTypeDescriptor) : TypeEngine :=
  match lookup "type" d with
  | Some (JStr "string") => sa_VARCHAR
  | Some (JStr "integer") => sa_BIGINT
  | Some (JStr "number") => sa_DECIMAL
  | Some (JStr "boolean") => sa_BOOLEAN
  | Some (JStr "object") => sa_JSON
  | Some (JStr "array") => sa_JSON
  | _ => sa_VARCHAR
  end.

End TypeConv.

(* ================================================================== *)
(** ** [BigQuerySqlProcessor] *)
(* ================================================================== *)

Module Processor.
Import PyStr TypeConv.

(** *** Exceptions *)

Inductive ExnClass : Type :=
| PyAirbyteInternalError
| PyAirbyteInputError
| NotFound
| ValueError
| OtherException.

(** A raised [Exception] instance.  [exn_str] is [str(ex)] for an exception
    coming from a collaborator and the [message] argument for the two
    errors this module constructs itself. *)
Record PyExn : Type := mkExn {
  exn_class : ExnClass;
  exn_str : string;
  exn_context : list (string * string)
}.

Inductive Result (A : Type) : Type :=
| Ok (a : A)
| Raise (ex : PyExn).
Arguments Ok {A} a.
Arguments Raise {A} ex.

(** *** Configuration read through [self.cache] *)

Record Cache : Type := mkCache {
  schema_name : string;
  project_name : string;
  dataset_name : string;
  credentials_path : option string
}.

(** [bigquery.LoadJobConfig(source_format=..., schema=[SchemaField(name,
    field_type=...) ...])] *)
Inductive SourceFormat : Type := NEWLINE_DELIMITED_JSON | CSV | AVRO | PARQUET.

Record LoadJobConfig : Type := mkLoadJobConfig {
  source_format : SourceFormat;
  schema : list (string * string)
}.

(** *** The collaborators

    Everything the processor reaches outside this module: the warehouse
    behind [_execute_sql] and the BigQuery client, the credential sources,
    the file system and the stream catalog.  [World] is their state; every
    operation may change it and may raise. *)
Record Env : Type := mkEnv {
  World : Type;
  Credentials : Type;
  LoadJob : Type;
  (** [SqlProcessorBase._execute_sql(sql)] *)
  execute_sql : string -> World -> Result unit * World;
  (** [SqlProcessorBase._create_table_for_loading(stream_name, batch_id)] *)
  create_table_for_loading : string -> string -> World -> Result string * World;
  (** [service_account.Credentials.from_service_account_file(path)] *)
  from_service_account_file : string -> World -> Result Credentials * World;
  (** [google.auth.default()], a pair of credentials and project id *)
  google_auth_default : World -> Result (Credentials * option string) * World;
  (** [bigquery.Client(credentials=c).get_table(table_id)] *)
  client_get_table : Credentials -> string -> World -> Result unit * World;
  (** [sqlalchemy.inspect(conn).get_table_names(schema=s)] on a connection
      from [get_sql_connection()] *)
  inspector_get_table_names : string -> World -> Result (list string) * World;
  (** [Path.open(file_path, "rb")] *)
  path_open : string -> World -> Result unit * World;
  (** [bigquery.Client(credentials=c).load_table_from_file(file_obj=f,
      destination=d, job_config=cfg)] *)
  client_load_table_from_file :
    Credentials -> string -> string -> LoadJobConfig -> World ->
    Result LoadJob * World;
  (** [load_job.result()] *)
  load_job_result : LoadJob -> World -> Result unit * World;
  (** [SQLTypeConverter.to_sql_type], the parent of the type converter *)
  generic_to_sql_type : ColumnTypeDescriptor -> TypeEngine;
  (** the catalog: per stream, the ordered mapping from column name to
      column type descriptor *)
  stream_columns : string -> list (string * ColumnTypeDescriptor)
}.

Section Methods.

Context (E : Env).

(** *** Instance state *)

(** The fields set in [__init__]. *)
Record Self : Type := mkSelf {
  cache : Cache;
  _credentials : option (Credentials E);
  _schema_exists : option bool
}.

(** The two assignments of [BigQuerySqlProcessor.__init__] (lines 68-69).
    The call [super().__init__(cache, file_writer)] that follows them runs
    [SqlProcessorBase.__init__], which is not among the sources; no theorem
    below starts from [init]: they hold from every state. *)
Definition init (c : Cache) : Self := mkSelf c None None.

(** One call that left the processor, in the order the calls were made. *)
Inductive Event : Type :=
| EvExecuteSql (sql : string)
| EvCreateTableForLoading (stream_name batch_id : string)
| EvFromServiceAccountFile (path : string)
| EvAuthDefault
| EvGetTable (table_id : string)
| EvGetTableNames (schema_ : string)
| EvOpen (path : string)
| EvLoadTableFromFile (path destination : string) (cfg : LoadJobConfig)
    (job : option (LoadJob E))
| EvClose (path : string)
| EvJobResult (job : LoadJob E) (returned : bool).

Record St : Type := mkSt {
  self : Self;
  world : World E;
  log : list Event
}.

(** *** Methods run in a state-and-exception monad *)

Definition M (A : Type) : Type := St -> Result A * St.

Definition ret {A} (a : A) : M A := fun st => (Ok a, st).

Definition bind {A B} (m : M A) (k : A -> M B) : M B :=
  fun st =>
    match m st with
    | (Ok a, st1) => k a st1
    | (Raise ex, st1) => (Raise ex, st1)
    end.

Definition raise {A} (ex : PyExn) : M A := fun st => (Raise ex, st).

(** [try: m  except Exception as ex: h ex] *)
Definition try_except {A} (m : M A) (h : PyExn -> M A) : M A :=
  fun st =>
    match m st with
    | (Ok a, st1) => (Ok a, st1)
    | (Raise ex, st1) => h ex st1
    end.

(** [try: ... finally: fin], with a [fin] that does not raise. *)
Definition finally {A} (m : M A) (fin : St -> St) : M A :=
  fun st => let (r, st1) := m st in (r, fin st1).

Definition get_self : M Self := fun st => (Ok (self st), st).

Definition put_self (s : Self) : M unit :=
  fun st => (Ok tt, mkSt s (world st) (log st)).

Definition emit (e : Event) (st : St) : St :=
  mkSt (self st) (world st) (log st ++ [e])%list.

(** Run a collaborator on the world and record the call; the recorded
    event may mention how the call ended. *)
Definition call {A} (op : World E -> Result A * World E)
    (ev : Result A -> Event) : M A :=
  fun st =>
    let (r, w) := op (world st) in
    (r, mkSt (self st) w (log st ++ [ev r])%list).

Notation "x <- m ;; k" := (bind m (fun x => k))
  (at level 61, m at next level, right associativity).
Notation "m ;;; k" := (bind m (fun _ => k))
  (at level 61, right associativity).

(** Python truthiness of the two optional fields that are tested. *)
Definition truthy_bool (b : option bool) : bool :=
  match b with Some true => true | _ => false end.

Definition truthy_str (s : option string) : bool :=
  match s with
  | Some (String _ _) => true
  | _ => false
  end.

Definition nl : string := String (ascii_of_nat 10) EmptyString.

(** *** Collaborator calls *)

Definition _execute_sql (sql : string) : M unit :=
  call (execute_sql E sql) (fun _ => EvExecuteSql sql).

Definition _create_table_for_loading (stream_name batch_id : string)
  : M string :=
  call (create_table_for_loading E stream_name batch_id)
       (fun _ => EvCreateTableForLoading stream_name batch_id).

(** Modelled from the spec: [SqlProcessorBase._get_sql_column_definitions]
    is not among the sources; section 4.4 step 2 has it resolve the column
    set by applying the type converter to each of the stream's known
    column descriptors, in the catalog's order. *)
Definition _get_sql_column_definitions (stream_name : string)
  : list (string * string) :=
  map (fun nd => (fst nd, to_sql_type (generic_to_sql_type E) (snd nd)))
      (stream_columns E stream_name).

(** *** [_fully_qualified], [_quote_identifier] *)

Definition _fully_qualified (c : Cache) (table_name : string) : string :=
  "`" ++ schema_name c ++ "`.`" ++ table_name ++ "`".

Definition _quote_identifier (identifier : string) : string :=
  "`" ++ py_lower identifier ++ "`".

(** *** [_ensure_schema_exists] *)

Definition create_schema_sql (c : Cache) : string :=
  "CREATE SCHEMA IF NOT EXISTS " ++ schema_name c.

Definition _ensure_schema_exists : M unit :=
  s <- get_self ;;
  if truthy_bool (_schema_exists s) then ret tt
  else
    let sql := create_schema_sql (cache s) in
    try_except (_execute_sql sql)
      (fun ex =>
         if negb (py_in "already exists" (exn_str ex)) then raise ex
         else ret tt) ;;;
    s1 <- get_self ;;
    put_self (mkSelf (cache s1) (_credentials s1) (Some true)).

(** The processor fields after [self._schema_exists = True]. *)
Definition memo_set (s : Self) : Self :=
  mkSelf (cache s) (_credentials s) (Some true).

(** The state right after the creation command was handed to [_execute_sql]
    and left the world as [w]. *)
Definition after_create (st : St) (w : World E) : St :=
  mkSt (self st) w
       (log st ++ [EvExecuteSql (create_schema_sql (cache (self st)))]).

(** *** [_get_credentials] *)

(** The processor fields after [self._credentials = c]. *)
Definition with_credentials (c : Credentials E) (s : Self) : Self :=
  mkSelf (cache s) (Some c) (_schema_exists s).

Definition _get_credentials : M (Credentials E) :=
  s <- get_self ;;
  match _credentials s with
  | Some c => ret c
  | None =>
      c <- (if truthy_str (credentials_path (cache s)) then
              let path := match credentials_path (cache s) with
                          | Some p => p
                          | None => EmptyString
                          end in
              call (from_service_account_file E path)
                   (fun _ => EvFromServiceAccountFile path)
            else
              r <- call (google_auth_default E) (fun _ => EvAuthDefault) ;;
              ret (fst r)) ;;
      s1 <- get_self ;;
      put_self (mkSelf (cache s1) (Some c) (_schema_exists s1)) ;;;
      ret c
  end.

(** *** [_table_exists] *)

Definition table_id_of (c : Cache) (table_name : string) : string :=
  project_name c ++ "." ++ dataset_name c ++ "." ++ table_name.

Definition _table_exists (table_name : string) : M bool :=
  creds <- _get_credentials ;;
  s <- get_self ;;
  let table_id := table_id_of (cache s) table_name in
  try_except
    (call (client_get_table E creds table_id) (fun _ => EvGetTable table_id) ;;;
     ret true)
    (fun ex =>
       match exn_class ex with
       | NotFound => ret false
       | ValueError =>
           raise (mkExn PyAirbyteInputError
                    "Invalid project name or dataset name."
                    [("table_id", table_id);
                     ("table_name", table_name);
                     ("project_name", project_name (cache s));
                     ("dataset_name", dataset_name (cache s))])
       | _ => raise ex
       end).

(** *** [_get_tables_list] *)

Definition strip_schema_prefix (schema_prefix table : string) : string :=
  if py_startswith table schema_prefix
  then py_replace table schema_prefix "" 1
  else table.

Definition _get_tables_list : M (list string) :=
  s <- get_self ;;
  tables <- call (inspector_get_table_names E (schema_name (cache s)))
                 (fun _ => EvGetTableNames (schema_name (cache s))) ;;
  let schema_prefix := schema_name (cache s) ++ "." in
  ret (map (strip_schema_prefix schema_prefix) tables).

(** *** [_write_files_to_new_table] *)

Definition job_of {A} (r : Result A) : option A :=
  match r with Ok j => Some j | Raise _ => None end.

Definition returned {A} (r : Result A) : bool :=
  match r with Ok _ => true | Raise _ => false end.

Definition load_job_config (stream_name : string) : LoadJobConfig :=
  mkLoadJobConfig NEWLINE_DELIMITED_JSON
    (_get_sql_column_definitions stream_name).

(** One iteration of the [for file_path in files] loop. *)
Definition load_one_file (creds : Credentials E)
    (table_id stream_name file_path : string) : M unit :=
  call (path_open E file_path) (fun _ => EvOpen file_path) ;;;
  load_job <-
    finally
      (let cfg := load_job_config stream_name in
       call (client_load_table_from_file E creds file_path table_id cfg)
            (fun r => EvLoadTableFromFile file_path table_id cfg (job_of r)))
      (emit (EvClose file_path)) ;;
  call (load_job_result E load_job)
       (fun r => EvJobResult load_job (returned r)).

Fixpoint load_files (creds : Credentials E) (table_id stream_name : string)
    (files : list string) : M unit :=
  match files with
  | [] => ret tt
  | file_path :: rest =>
      load_one_file creds table_id stream_name file_path ;;;
      load_files creds table_id stream_name rest
  end.

Definition _write_files_to_new_table (files : list string)
    (stream_name batch_id : string) : M string :=
  temp_table_name <- _create_table_for_loading stream_name batch_id ;;
  s <- get_self ;;
  let table_id := table_id_of (cache s) temp_table_name in
  creds <- _get_credentials ;;
  load_files creds table_id stream_name files ;;;
  ret temp_table_name.

(** *** [_swap_temp_table_with_final_table]

    The two table names are [option string]: [None] is Python's [None]. *)

Definition swap_commands (c : Cache) (temp_table_name final_table_name : string)
  : list string :=
  let deletion_name := final_table_name ++ "_deleteme" in
  [ "ALTER TABLE " ++ _fully_qualified c final_table_name ++ " " ++
    "RENAME TO " ++ deletion_name ++ ";";
    "ALTER TABLE " ++ _fully_qualified c temp_table_name ++ " " ++
    "RENAME TO " ++ final_table_name ++ ";";
    "DROP TABLE " ++ _fully_qualified c deletion_name ++ ";" ].

Definition _swap_temp_table_with_final_table (stream_name : string)
    (temp_table_name final_table_name : option string) : M unit :=
  match final_table_name with
  | None =>
      raise (mkExn PyAirbyteInternalError
               "Arg 'final_table_name' cannot be None." [])
  | Some final =>
      match temp_table_name with
      | None =>
          raise (mkExn PyAirbyteInternalError
                   "Arg 'temp_table_name' cannot be None." [])
      | Some temp =>
          s <- get_self ;;
          let commands := py_join nl (swap_commands (cache s) temp final) in
          _execute_sql commands
      end
  end.

(** The script of the swap: three statements joined by newlines. *)
Definition swap_script (c : Cache) (temp final : string) : string :=
  "ALTER TABLE `" ++ schema_name c ++ "`.`" ++ final ++ "` RENAME TO "
    ++ final ++ "_deleteme;" ++ nl ++
  "ALTER TABLE `" ++ schema_name c ++ "`.`" ++ temp ++ "` RENAME TO "
    ++ final ++ ";" ++ nl ++
  "DROP TABLE `" ++ schema_name c ++ "`.`" ++ final ++ "_deleteme`;".

(** [n] calls of [_ensure_schema_exists] on one instance by a caller that
    catches whatever a call raises and makes the next call all the same: the
    outcomes of the calls in order, and the state after the last one. *)
Fixpoint ensure_schema_calls (n : nat) (st : St) : list (Result unit) * St :=
  match n with
  | O => ([], st)
  | S k =>
      let (r, st1) := _ensure_schema_exists st in
      let (rs, st2) := ensure_schema_calls k st1 in
      (r :: rs, st2)
  end.

(** How many of the outcomes are exceptions. *)
Definition count_raised {A} (rs : list (Result A)) : nat :=
  List.length (filter (fun r => negb (returned r)) rs).

(** *** Reading the call log *)

Definition is_execute_sql (e : Event) : bool :=
  match e with EvExecuteSql _ => true | _ => false end.

(** The events of the load loop. *)
Definition is_load_event (e : Event) : bool :=
  match e with
  | EvOpen _ | EvLoadTableFromFile _ _ _ _ | EvClose _ | EvJobResult _ _ => true
  | _ => false
  end.

(** No statement in the log renames a table away to a [_deleteme] name or
    drops a table. *)
Definition skips_rename_away_and_drop (evs : list Event) : bool :=
  forallb
    (fun e =>
       match e with
       | EvExecuteSql sql =>
           negb (py_in "_deleteme" sql) && negb (py_in "DROP TABLE" sql)
       | _ => true
       end)
    evs.

(** The shape of the log of a load loop over [files], all jobs going to
    [dest] with configuration [cfg]: one block per file, in the order of the
    files - open, submit, close, wait for the job - where the wait of a file
    has returned before the block of the next file starts.  The last index
    tells whether the loop ran to its end ([true]) or stopped at the call
    that raised ([false]). *)
Inductive load_protocol (dest : string) (cfg : LoadJobConfig)
  : list string -> list Event -> bool -> Prop :=
| lp_done : load_protocol dest cfg [] [] true
| lp_open_raised : forall f fs,
    load_protocol dest cfg (f :: fs) [EvOpen f] false
| lp_submit_raised : forall f fs,
    load_protocol dest cfg (f :: fs)
      [EvOpen f; EvLoadTableFromFile f dest cfg None; EvClose f] false
| lp_wait_raised : forall f fs j,
    load_protocol dest cfg (f :: fs)
      [EvOpen f; EvLoadTableFromFile f dest cfg (Some j); EvClose f;
       EvJobResult j false] false
| lp_loaded : forall f fs j evs b,
    load_protocol dest cfg fs evs b ->
    load_protocol dest cfg (f :: fs)
      (EvOpen f :: EvLoadTableFromFile f dest cfg (Some j) :: EvClose f
         :: EvJobResult j true :: evs) b.

(** The load loop told by what the collaborators answer, for the credentials
    [creds], the destination [dest] and the job configuration [cfg]:
    [load_run w files evs w' r] says that, started in world [w], the loop over
    [files] makes exactly the calls [evs], leaves the world as [w'] and ends
    as [r].  For each file in turn the file is opened; if that returns the
    load is submitted and the file closed; if the submission returned a job
    the job is awaited; only if the wait returns does the next file get its
    turn.  The loop returns when no file is left and raises what the first
    call to raise has raised. *)
Inductive load_run (creds : Credentials E) (dest : string) (cfg : LoadJobConfig)
  : World E -> list string -> list Event -> World E -> Result unit -> Prop :=
| lr_done : forall w,
    load_run creds dest cfg w [] [] w (Ok tt)
| lr_open_raised : forall w f fs ex w1,
    path_open E f w = (Raise ex, w1) ->
    load_run creds dest cfg w (f :: fs) [EvOpen f] w1 (Raise ex)
| lr_submit_raised : forall w f fs u w1 ex w2,
    path_open E f w = (Ok u, w1) ->
    client_load_table_from_file E creds f dest cfg w1 = (Raise ex, w2) ->
    load_run creds dest cfg w (f :: fs)
      [EvOpen f; EvLoadTableFromFile f dest cfg None; EvClose f] w2 (Raise ex)
| lr_wait_raised : forall w f fs u w1 j w2 ex w3,
    path_open E f w = (Ok u, w1) ->
    client_load_table_from_file E creds f dest cfg w1 = (Ok j, w2) ->
    load_job_result E j w2 = (Raise ex, w3) ->
    load_run creds dest cfg w (f :: fs)
      [EvOpen f; EvLoadTableFromFile f dest cfg (Some j); EvClose f;
       EvJobResult j false] w3 (Raise ex)
| lr_loaded : forall w f fs u w1 j w2 u' w3 evs w' r,
    path_open E f w = (Ok u, w1) ->
    client_load_table_from_file E creds f dest cfg w1 = (Ok j, w2) ->
    load_job_result E j w2 = (Ok u', w3) ->
    load_run creds dest cfg w3 fs evs w' r ->
    load_run creds dest cfg w (f :: fs)
      (EvOpen f :: EvLoadTableFromFile f dest cfg (Some j) :: EvClose f
         :: EvJobResult j true :: evs) w' r.

(** What a load event must carry: the line-delimited JSON format and the
    columns of the stream as the type converter resolves them from the
    catalog; and the staging table is not created a second time. *)
Definition load_event_uses_declared_schema (stream_name : string) (e : Event)
  : Prop :=
  match e with
  | EvLoadTableFromFile _ _ cfg _ =>
      source_format cfg = NEWLINE_DELIMITED_JSON
      /\ schema cfg
         = map (fun nd => (fst nd, to_sql_type (generic_to_sql_type E) (snd nd)))
               (stream_columns E stream_name)
  | EvCreateTableForLoading _ _ => False
  | _ => True
  end.

(** *** Sequences of method calls on one instance *)

Inductive MethodCall : Type :=
| CallEnsureSchemaExists
| CallGetCredentials
| CallTableExists (table_name : string)
| CallGetTablesList
| CallWriteFilesToNewTable (files : list string) (stream_name batch_id : string)
| CallSwap (stream_name : string) (temp_table_name final_table_name : option string).

(** The state one method call leaves behind, whether it returned or raised. *)
Definition run_call (c : MethodCall) (st : St) : St :=
  match c with
  | CallEnsureSchemaExists => snd (_ensure_schema_exists st)
  | CallGetCredentials => snd (_get_credentials st)
  | CallTableExists t => snd (_table_exists t st)
  | CallGetTablesList => snd (_get_tables_list st)
  | CallWriteFilesToNewTable files s b =>
      snd (_write_files_to_new_table files s b st)
  | CallSwap s t f => snd (_swap_temp_table_with_final_table s t f st)
  end.

(** A caller that makes the calls one after the other and goes on after a
    call that raised. *)
Definition run_calls (cs : list MethodCall) (st : St) : St :=
  fold_left (fun s c => run_call c s) cs st.

Definition is_credential_event (e : Event) : bool :=
  match e with
  | EvFromServiceAccountFile _ | EvAuthDefault => true
  | _ => false
  end.

(** The creation command of [_ensure_schema_exists] for cache [c]. *)
Definition is_create_schema_event (c : Cache) (e : Event) : bool :=
  match e with
  | EvExecuteSql sql => String.eqb sql (create_schema_sql c)
  | _ => false
  end.

Definition is_open (e : Event) : bool :=
  match e with EvOpen _ => true | _ => false end.

Definition is_submit (e : Event) : bool :=
  match e with EvLoadTableFromFile _ _ _ _ => true | _ => false end.

Definition is_close (e : Event) : bool :=
  match e with EvClose _ => true | _ => false end.

Definition is_returned_wait (e : Event) : bool :=
  match e with EvJobResult _ true => true | _ => false end.

Definition count_events (p : Event -> bool) (evs : list Event) : nat :=
  List.length (filter p evs).

Definition is_create_table_event (e : Event) : bool :=
  match e with EvCreateTableForLoading _ _ => true | _ => false end.

(** [st'] comes after [st] in the life of one instance: the configuration is
    the same, a set memo is still set, cached credentials are still the same
    credentials, and the call log of [st'] is the log of [st] followed by
    further calls, none of which is the creation command if the memo was set
    in [st] and none of which goes to a credential source if credentials were
    cached in [st]. *)
Definition evolves (st st' : St) : Prop :=
  cache (self st') = cache (self st)
  /\ (truthy_bool (_schema_exists (self st)) = true ->
      truthy_bool (_schema_exists (self st')) = true)
  /\ (forall c, _credentials (self st) = Some c ->
                _credentials (self st') = Some c)
  /\ exists evs,
       log st' = (log st ++ evs)%list
       /\ (truthy_bool (_schema_exists (self st)) = true ->
           forallb (fun e => negb (is_create_schema_event (cache (self st)) e))
                   evs = true)
       /\ (_credentials (self st) <> None ->
           forallb (fun e => negb (is_credential_event e)) evs = true).

End Methods.

Arguments EvExecuteSql {E} sql.
Arguments EvCreateTableForLoading {E} stream_name batch_id.
Arguments EvFromServiceAccountFile {E} path.
Arguments EvAuthDefault {E}.
Arguments EvGetTable {E} table_id.
Arguments EvGetTableNames {E} schema_.
Arguments EvOpen {E} path.
Arguments EvLoadTableFromFile {E} path destination cfg job.
Arguments EvClose {E} path.
Arguments EvJobResult {E} job returned.
Arguments mkSelf {E} cache _credentials _schema_exists.
Arguments cache {E} s.
Arguments _credentials {E} s.
Arguments _schema_exists {E} s.
Arguments mkSt {E} self world log.
Arguments self {E} s.
Arguments world {E} s.
Arguments log {E} s.
Arguments memo_set {E} s.
Arguments after_create {E} st w.
Arguments with_credentials {E} c s.

End Processor.

(* ================================================================== *)
(** ** [BigQueryTypeConverter] over a parent that may raise *)
(* ================================================================== *)

Module RaisingParent.
Import TypeConv Processor.

(** [BigQueryTypeConverter.to_sql_type] with the call of line 48 as Python
    has it: [super().to_sql_type(...)] returns a type or raises, and nothing
    in the method catches what it raises. *)
Definition to_sql_type
    (generic_to_sql_type : ColumnTypeDescriptor -> Result TypeEngine)
    (json_schema_property_def : ColumnTypeDescriptor) : Result string :=
  match generic_to_sql_type json_schema_property_def with
  | Raise ex => Raise ex
  | Ok sql_type =>
      if isinstance sql_type "VARCHAR" then Ok get_string_type
      else if isinstance sql_type "BIGINT" then Ok "INT64"
      else Ok (class_name sql_type)
  end.

End RaisingParent.

(* ================================================================== *)
(** ** A concrete set of collaborators *)
(* ================================================================== *)

(** A scripted warehouse, enough to run every method: [_execute_sql] answers
    from a queue of prepared outcomes, [get_table] knows a fixed set of table
    ids, the inspector lists fixed names, some paths cannot be opened, and
    load jobs are numbered in submission order. *)
Module Mock.
Import PyStr TypeConv Processor.

Record MockWorld : Type := mkMock {
  sql_outcomes : list (option PyExn);
  existing_tables : list string;
  listed_tables : list string;
  unreadable : list string;
  next_job : nat
}.

Definition mem (s : string) (l : list string) : bool :=
  existsb (String.eqb s) l.

Definition mock_execute_sql (sql : string) (w : MockWorld)
  : Result unit * MockWorld :=
  match sql_outcomes w with
  | [] => (Ok tt, w)
  | o :: rest =>
      let w' := mkMock rest (existing_tables w) (listed_tables w)
                       (unreadable w) (next_job w) in
      match o with
      | None => (Ok tt, w')
      | Some ex => (Raise ex, w')
      end
  end.

Definition mock_get_table (_ : string) (table_id : string) (w : MockWorld)
  : Result unit * MockWorld :=
  if mem table_id (existing_tables w) then (Ok tt, w)
  else (Raise (mkExn NotFound ("Not found: Table " ++ table_id) []), w).

Definition mock_open (path : string) (w : MockWorld)
  : Result unit * MockWorld :=
  if mem path (unreadable w)
  then (Raise (mkExn OtherException ("No such file or directory: " ++ path) []), w)
  else (Ok tt, w).

Definition mock_load (_ _ _ : string) (_ : LoadJobConfig) (w : MockWorld)
  : Result nat * MockWorld :=
  (Ok (next_job w),
   mkMock (sql_outcomes w) (existing_tables w) (listed_tables w)
          (unreadable w) (S (next_job w))).

Definition mock_columns (stream_name : string)
  : list (string * ColumnTypeDescriptor) :=
  if String.eqb stream_name "users"
  then [("id", [("type", JStr "integer")]);
        ("name", [("type", JStr "string")])]
  else [].

Definition env : Env := {|
  World := MockWorld;
  Credentials := string;
  LoadJob := nat;
  execute_sql := mock_execute_sql;
  create_table_for_loading := fun s b w => (Ok (s ++ "_" ++ b), w);
  from_service_account_file := fun p w => (Ok ("service-account:" ++ p), w);
  google_auth_default := fun w => (Ok ("ambient", None), w);
  client_get_table := mock_get_table;
  inspector_get_table_names := fun _ w => (Ok (listed_tables w), w);
  path_open := mock_open;
  client_load_table_from_file := mock_load;
  load_job_result := fun _ w => (Ok tt, w);
  generic_to_sql_type := spec_generic_to_sql_type;
  stream_columns := mock_columns
|}.

Definition the_cache : Cache :=
  mkCache "airbyte_raw" "my-project" "airbyte_raw" None.

Definition the_cache_with_key : Cache :=
  mkCache "airbyte_raw" "my-project" "airbyte_raw" (Some "/secrets/key.json").

Definition empty_world : MockWorld := mkMock [] [] [] [] 0.

(** A processor over a given world whose fields are as [init] leaves them. *)
Definition fresh (c : Cache) (w : MockWorld) : St env :=
  mkSt (init env c) w [].

Definition duplicate_error : PyExn :=
  mkExn OtherException "Dataset my-project:airbyte_raw already exists" [].

Definition denied_error : PyExn :=
  mkExn OtherException "403 Access Denied: permission bigquery.datasets.create" [].

(** A fresh processor whose first [_execute_sql] call will raise a duplicate
    error, and one whose first and second calls will be denied. *)
Definition duplicate_state : St env :=
  fresh the_cache (mkMock [Some duplicate_error] [] [] [] 0).

Definition denied_state : St env :=
  fresh the_cache (mkMock [Some denied_error; Some denied_error] [] [] [] 0).

(** A fresh processor over a warehouse with no table at all: the first load
    of every stream is still to come. *)
Definition first_load_state : St env := fresh the_cache empty_world.

Definition keyed_state : St env := fresh the_cache_with_key empty_world.

(** A fresh processor whose inspector lists one qualified and one
    unqualified name. *)
Definition listing_state : St env :=
  fresh the_cache (mkMock [] [] ["airbyte_raw.users"; "orders"] [] 0).

(** The same collaborators with no credential source reachable. *)
Definition unreachable_error : PyExn :=
  mkExn OtherException "Could not automatically determine credentials" [].

Definition env_without_credentials : Env := {|
  World := MockWorld;
  Credentials := string;
  LoadJob := nat;
  execute_sql := mock_execute_sql;
  create_table_for_loading := fun s b w => (Ok (s ++ "_" ++ b), w);
  from_service_account_file := fun _ w => (Raise unreachable_error, w);
  google_auth_default := fun w => (Raise unreachable_error, w);
  client_get_table := mock_get_table;
  inspector_get_table_names := fun _ w => (Ok (listed_tables w), w);
  path_open := mock_open;
  client_load_table_from_file := mock_load;
  load_job_result := fun _ w => (Ok tt, w);
  generic_to_sql_type := spec_generic_to_sql_type;
  stream_columns := mock_columns
|}.

Definition stranded_state : St env_without_credentials :=
  mkSt (init env_without_credentials the_cache) empty_world [].



(** A mixed sequence of calls. *)
Definition some_calls : list MethodCall :=
  [CallSwap "users" (Some "users_b1") (Some "users");
   CallEnsureSchemaExists;
   CallWriteFilesToNewTable ["a.jsonl"; "b.jsonl"] "users" "b2";
   CallTableExists "users";
   CallGetCredentials;
   CallGetTablesList;
   CallEnsureSchemaExists].

End Mock.

(* ================================================================== *)
(** ** Properties *)
(* ================================================================== *)

Import PyStr TypeConv Processor.

(** *** Facts about the string operations *)

Module PyStrFacts.

Lemma prefix_app (p r : string) : String.prefix p (p ++ r) = true.
Proof.
  induction p as [|c p IH]; simpl.
  - destruct r; reflexivity.
  - destruct (ascii_dec c c) as [_|n]; [exact IH | contradiction].
Qed.

Lemma prefix_split (p s : string) :
  String.prefix p s = true -> exists r, s = p ++ r.
Proof.
  revert s; induction p as [|c p IH]; intros s H.
  - exists s; reflexivity.
  - destruct s as [|d s]; simpl in H; [discriminate|].
    destruct (ascii_dec c d) as [->|]; [|discriminate].
    destruct (IH s H) as [r ->]. exists r; reflexivity.
Qed.

Lemma py_drop_app (p r : string) : py_drop (String.length p) (p ++ r) = r.
Proof. induction p as [|c p IH]; simpl; auto. Qed.

Lemma find_first_hit (old s : string) :
  String.prefix old s = true ->
  find_first old s = Some (EmptyString, py_drop (String.length old) s).
Proof. intros H; destruct s; cbn [find_first]; rewrite H; reflexivity. Qed.

Lemma find_first_prefix (p r : string) :
  find_first p (p ++ r) = Some (EmptyString, r).
Proof.
  rewrite (find_first_hit _ _ (prefix_app p r)), py_drop_app. reflexivity.
Qed.

Lemma length_app (s t : string) :
  String.length (s ++ t) = String.length s + String.length t.
Proof. induction s as [|c s IH]; simpl; congruence. Qed.

Lemma append_assoc (s t u : string) : (s ++ t) ++ u = s ++ (t ++ u).
Proof. induction s as [|c s IH]; simpl; congruence. Qed.



End PyStrFacts.
Import PyStrFacts.

(** *** Identifier quoting *)









(** *** Table listing *)

Lemma strip_schema_prefix_qualified (schema_prefix rest : string) :
  schema_prefix <> EmptyString ->
  strip_schema_prefix schema_prefix (schema_prefix ++ rest) = rest.
Proof.
  intros Hne. unfold strip_schema_prefix, py_startswith.
  rewrite prefix_app. unfold py_replace.
  destruct schema_prefix as [|c p] eqn:E; [contradiction|].
  rewrite <- E. cbn [replace_nonempty].
  rewrite find_first_prefix. reflexivity.
Qed.

Lemma strip_schema_prefix_unqualified (schema_prefix table : string) :
  py_startswith table schema_prefix = false ->
  strip_schema_prefix schema_prefix table = table.
Proof. intros H. unfold strip_schema_prefix. rewrite H. reflexivity. Qed.

Lemma schema_prefix_nonempty (s : string) : s ++ "." <> EmptyString.
Proof. destruct s; discriminate. Qed.

Section Correctness.

Context (E : Env).

Implicit Types (st : St E) (ex : PyExn).

(** C9.  Whatever the inspector returns, [_get_tables_list] returns one name
    per listed table, in the same order: a table that comes back as
    ["{schema_name}." ++ rest] is returned as [rest], and a table that does
    not start with ["{schema_name}."] is returned unchanged. *)
Theorem get_tables_list_strips_schema_prefix :
  forall st (tables : list string) (w : World E),
    inspector_get_table_names E (schema_name (cache (self st))) (world st)
      = (Ok tables, w) ->
    exists out st',
      _get_tables_list E st = (Ok out, st')
      /\ self st' = self st
      /\ Forall2
           (fun table name =>
              (forall rest,
                  table = schema_name (cache (self st)) ++ "." ++ rest ->
                  name = rest)
              /\ (py_startswith table (schema_name (cache (self st)) ++ ".")
                  = true ->
                  exists rest,
                    table = schema_name (cache (self st)) ++ "." ++ rest
                    /\ name = rest)
              /\ (py_startswith table (schema_name (cache (self st)) ++ ".")
                  = false -> name = table))
           tables out.
Proof.
  intros st tables w H.
  unfold _get_tables_list, bind, get_self, call, ret. cbn [self].
  rewrite H. eexists; eexists. split; [reflexivity|]. split; [reflexivity|].
  clear H. induction tables as [|t ts IH]; cbn [map]; constructor; auto.
  split; [|split].
  - intros rest ->. rewrite <- append_assoc.
    apply strip_schema_prefix_qualified, schema_prefix_nonempty.
  - intros Hpre. destruct (prefix_split _ _ Hpre) as [rest ->].
    exists rest. rewrite append_assoc. split; [reflexivity|].
    rewrite <- append_assoc.
    apply strip_schema_prefix_qualified, schema_prefix_nonempty.
  - apply strip_schema_prefix_unqualified.
Qed.

(** *** Type conversion *)

Lemma raising_parent_agrees (generic : ColumnTypeDescriptor -> TypeEngine)
    (d : ColumnTypeDescriptor) :
  RaisingParent.to_sql_type (fun d' => Ok (generic d')) d
  = Ok (TypeConv.to_sql_type generic d).
Proof.
  unfold RaisingParent.to_sql_type, TypeConv.to_sql_type.
  destruct (isinstance (generic d) "VARCHAR"); [reflexivity|].
  destruct (isinstance (generic d) "BIGINT"); reflexivity.
Qed.


(** *** Swap *)

(** C2.  When the staging name or the final name is [None], the swap raises
    [PyAirbyteInternalError] and leaves the processor, the world and the
    call log exactly as they were: nothing was handed to [_execute_sql]. *)
Theorem swap_rejects_unset_names :
  forall st (stream_name : string) (temp final : option string),
    temp = None \/ final = None ->
    exists ex,
      _swap_temp_table_with_final_table E stream_name temp final st
        = (Raise ex, st)
      /\ exn_class ex = PyAirbyteInternalError.
Proof.
  intros st stream_name temp final H.
  unfold _swap_temp_table_with_final_table, raise.
  destruct final as [f|].
  - destruct temp as [t|]; [destruct H; discriminate|].
    eexists; split; reflexivity.
  - eexists; split; reflexivity.
Qed.

Lemma swap_commands_joined (c : Cache) (temp final : string) :
  py_join nl (swap_commands c temp final) = swap_script c temp final.
Proof.
  unfold py_join, swap_commands, swap_script, _fully_qualified.
  cbn [String.concat].
  repeat (rewrite ?append_assoc; cbn [append]).
  reflexivity.
Qed.

(** C1, as the code has it.  With both names set, the swap makes exactly one
    [_execute_sql] call, carrying the three statements (rename the final
    table to [<final>_deleteme], rename the staging table to the final name,
    drop [<final>_deleteme]), and ends the way that call ends.  Nothing in it
    depends on whether a final table exists. *)
Theorem swap_submits_three_statements_once :
  forall st (stream_name temp final : string),
    _swap_temp_table_with_final_table E stream_name (Some temp) (Some final) st
    = (fst (execute_sql E (swap_script (cache (self st)) temp final) (world st)),
       mkSt (self st)
            (snd (execute_sql E (swap_script (cache (self st)) temp final)
                    (world st)))
            (log st ++ [EvExecuteSql (swap_script (cache (self st)) temp final)])).
Proof.
  intros st stream_name temp final.
  unfold _swap_temp_table_with_final_table, bind, get_self, _execute_sql, call.
  rewrite swap_commands_joined.
  destruct (execute_sql E _ (world st)); reflexivity.
Qed.

(** *** Namespace creation *)

Lemma ensure_schema_exists_unfold st :
  _ensure_schema_exists E st =
  if truthy_bool (_schema_exists (self st)) then (Ok tt, st)
  else
    match execute_sql E (create_schema_sql (cache (self st))) (world st) with
    | (Ok _, w) =>
        (Ok tt, mkSt (memo_set (self st)) w (log (after_create st w)))
    | (Raise ex, w) =>
        if py_in "already exists" (exn_str ex)
        then (Ok tt, mkSt (memo_set (self st)) w (log (after_create st w)))
        else (Raise ex, after_create st w)
    end.
Proof.
  unfold _ensure_schema_exists, bind, get_self, try_except, _execute_sql, call,
    put_self, ret, raise, after_create, memo_set.
  destruct (truthy_bool (_schema_exists (self st))); [reflexivity|].
  destruct (execute_sql E _ (world st)) as [[u|ex] w]; cbn; [reflexivity|].
  destruct (py_in "already exists" (exn_str ex)); reflexivity.
Qed.

Lemma ensure_schema_exists_memo_hit st :
  truthy_bool (_schema_exists (self st)) = true ->
  _ensure_schema_exists E st = (Ok tt, st).
Proof. intros H. rewrite ensure_schema_exists_unfold, H. reflexivity. Qed.

Lemma ensure_schema_exists_ok_sets_memo st st1 :
  _ensure_schema_exists E st = (Ok tt, st1) ->
  truthy_bool (_schema_exists (self st1)) = true.
Proof.
  rewrite ensure_schema_exists_unfold.
  destruct (truthy_bool (_schema_exists (self st))) eqn:T.
  - intros [= <-]. exact T.
  - destruct (execute_sql E _ (world st)) as [[u|ex] w].
    + intros [= <-]. reflexivity.
    + destruct (py_in "already exists" (exn_str ex)).
      * intros [= <-]. reflexivity.
      * discriminate.
Qed.

Lemma ensure_schema_exists_raise st ex st1 :
  _ensure_schema_exists E st = (Raise ex, st1) ->
  py_in "already exists" (exn_str ex) = false
  /\ self st1 = self st
  /\ log st1 = (log st ++ [EvExecuteSql (create_schema_sql (cache (self st)))])%list.
Proof.
  rewrite ensure_schema_exists_unfold.
  destruct (truthy_bool (_schema_exists (self st))); [discriminate|].
  destruct (execute_sql E _ (world st)) as [[u|ex'] w]; [discriminate|].
  destruct (py_in "already exists" (exn_str ex')) eqn:P; [discriminate|].
  intros [= <- <-]. auto.
Qed.

Lemma ensure_schema_exists_log st r st1 :
  _ensure_schema_exists E st = (r, st1) ->
  cache (self st1) = cache (self st)
  /\ (log st1 = log st
      \/ log st1
         = (log st ++ [EvExecuteSql (create_schema_sql (cache (self st)))])%list).
Proof.
  rewrite ensure_schema_exists_unfold.
  destruct (truthy_bool (_schema_exists (self st))).
  - intros [= <- <-]. auto.
  - destruct (execute_sql E _ (world st)) as [[u|ex] w].
    + intros [= <- <-]. auto.
    + destruct (py_in "already exists" (exn_str ex)); intros [= <- <-]; auto.
Qed.

Lemma ensure_schema_calls_memo_hit (n : nat) st :
  truthy_bool (_schema_exists (self st)) = true ->
  ensure_schema_calls E n st = (repeat (Ok tt) n, st).
Proof.
  intros H. induction n as [|n IH]; [reflexivity|].
  cbn [ensure_schema_calls repeat].
  rewrite (ensure_schema_exists_memo_hit st H), IH. reflexivity.
Qed.

Lemma ensure_schema_calls_app (a b : nat) st :
  ensure_schema_calls E (a + b) st
  = (fst (ensure_schema_calls E a st)
       ++ fst (ensure_schema_calls E b (snd (ensure_schema_calls E a st))),
     snd (ensure_schema_calls E b (snd (ensure_schema_calls E a st))))%list.
Proof.
  revert st. induction a as [|a IH]; intros st; cbn [Nat.add ensure_schema_calls].
  - cbn [fst snd app]. destruct (ensure_schema_calls E b st); reflexivity.
  - destruct (_ensure_schema_exists E st) as [r st1].
    rewrite (IH st1).
    destruct (ensure_schema_calls E a st1) as [rs st2]. cbn [fst snd].
    destruct (ensure_schema_calls E b st2); reflexivity.
Qed.

Lemma ensure_schema_calls_returned_sets_memo (n : nat) :
  forall st,
    In (Ok tt) (fst (ensure_schema_calls E n st)) ->
    truthy_bool (_schema_exists (self (snd (ensure_schema_calls E n st)))) = true.
Proof.
  induction n as [|n IH]; intros st; cbn [ensure_schema_calls].
  - cbn. contradiction.
  - destruct (_ensure_schema_exists E st) as [r st1] eqn:H1.
    destruct (ensure_schema_calls E n st1) as [rs st2] eqn:H2.
    cbn [fst snd]. intros [->|Hin].
    + pose proof (ensure_schema_exists_ok_sets_memo _ _ H1) as Hm.
      rewrite (ensure_schema_calls_memo_hit n st1 Hm) in H2.
      injection H2 as _ <-. exact Hm.
    + specialize (IH st1). rewrite H2 in IH. exact (IH Hin).
Qed.

(** C3.  Starting with the memo not set, when the creation command raises:
    if the exception text contains "already exists" the call returns normally
    and the memo is [True]; otherwise the same exception leaves the call, the
    processor fields are unchanged (the memo is as it was), and the next call
    hands the creation command to [_execute_sql] again. *)
Theorem ensure_schema_exists_swallows_only_duplicates :
  forall st ex (w : World E),
    truthy_bool (_schema_exists (self st)) = false ->
    execute_sql E (create_schema_sql (cache (self st))) (world st)
      = (Raise ex, w) ->
    (py_in "already exists" (exn_str ex) = true ->
       fst (_ensure_schema_exists E st) = Ok tt
       /\ _schema_exists (self (snd (_ensure_schema_exists E st))) = Some true)
    /\ (py_in "already exists" (exn_str ex) = false ->
          fst (_ensure_schema_exists E st) = Raise ex
          /\ self (snd (_ensure_schema_exists E st)) = self st
          /\ log (snd (_ensure_schema_exists E st))
             = (log st ++ [EvExecuteSql (create_schema_sql (cache (self st)))])%list
          /\ log (snd (_ensure_schema_exists E
                         (snd (_ensure_schema_exists E st))))
             = (log st
                  ++ [EvExecuteSql (create_schema_sql (cache (self st)));
                      EvExecuteSql (create_schema_sql (cache (self st)))])%list).
Proof.
  intros st ex w Hmemo Hraise. split; intros Hin.
  - rewrite ensure_schema_exists_unfold, Hmemo, Hraise, Hin. auto.
  - rewrite ensure_schema_exists_unfold, Hmemo, Hraise, Hin. cbn [fst snd].
    split; [reflexivity|]. split; [reflexivity|]. split; [reflexivity|].
    rewrite ensure_schema_exists_unfold. cbn [after_create self world log cache].
    rewrite Hmemo.
    destruct (execute_sql E _ w) as [[u|ex'] w'].
    + cbn. rewrite <- app_assoc. reflexivity.
    + destruct (py_in "already exists" (exn_str ex'));
        cbn; rewrite <- app_assoc; reflexivity.
Qed.

Lemma count_raised_repeat_ok (n : nat) :
  count_raised (repeat (@Ok unit tt) n) = 0.
Proof. induction n as [|n IH]; [reflexivity | exact IH]. Qed.

(** C4, as the code has it.  Of [n] calls of [_ensure_schema_exists] on one
    instance, made by a caller that goes on after a call that raised: no call
    raises an exception with "already exists" in its text; every call the
    instance makes to [_execute_sql] is the creation command, and there is one
    such call for each call that raised and at most one more; and as soon as
    one of the calls has returned, the calls after it return at once and
    leave the processor, the world and the log untouched. *)
Theorem ensure_schema_exists_memoized :
  forall (n : nat) st,
    List.length (fst (ensure_schema_calls E n st)) = n
    /\ (forall ex,
           In (Raise ex) (fst (ensure_schema_calls E n st)) ->
           py_in "already exists" (exn_str ex) = false)
    /\ (exists evs,
           log (snd (ensure_schema_calls E n st)) = (log st ++ evs)%list
           /\ Forall (fun e => e = EvExecuteSql
                                    (create_schema_sql (cache (self st)))) evs
           /\ count_raised (fst (ensure_schema_calls E n st)) <= List.length evs
           /\ List.length evs
              <= count_raised (fst (ensure_schema_calls E n st)) + 1)
    /\ (forall a b : nat,
           n = a + b ->
           In (Ok tt) (fst (ensure_schema_calls E a st)) ->
           ensure_schema_calls E n st
           = ((fst (ensure_schema_calls E a st) ++ repeat (Ok tt) b)%list,
              snd (ensure_schema_calls E a st))).
Proof.
  intros n st. split; [|split; [|split]].
  - revert st. induction n as [|n IH]; intros st; cbn [ensure_schema_calls];
      [reflexivity|].
    destruct (_ensure_schema_exists E st) as [r st1].
    specialize (IH st1). destruct (ensure_schema_calls E n st1) as [rs st2].
    cbn [fst List.length] in *. congruence.
  - revert st. induction n as [|n IH]; intros st ex; cbn [ensure_schema_calls].
    + cbn. contradiction.
    + destruct (_ensure_schema_exists E st) as [r st1] eqn:H1.
      specialize (IH st1 ex). destruct (ensure_schema_calls E n st1) as [rs st2].
      cbn [fst In] in *. intros [->|Hin]; [|auto].
      exact (proj1 (ensure_schema_exists_raise _ _ _ H1)).
  - revert st. induction n as [|n IH]; intros st; cbn [ensure_schema_calls].
    + exists []. cbn. rewrite app_nil_r. repeat split; auto.
    + destruct (_ensure_schema_exists E st) as [r st1] eqn:H1.
      destruct r as [[]|ex].
      * pose proof (ensure_schema_exists_ok_sets_memo _ _ H1) as Hm.
        rewrite (ensure_schema_calls_memo_hit n st1 Hm). cbn [fst snd].
        change (Ok tt :: repeat (Ok tt) n) with (repeat (@Ok unit tt) (S n)).
        rewrite count_raised_repeat_ok.
        destruct (ensure_schema_exists_log _ _ _ H1) as [_ [Hl|Hl]].
        -- exists []. rewrite app_nil_r. cbn. repeat split; auto.
        -- eexists. split; [exact Hl|]. cbn. repeat split; auto.
      * destruct (ensure_schema_exists_raise _ _ _ H1) as (_ & Hs & Hl).
        destruct (IH st1) as (evs & Hl' & Hall & Hlo & Hhi).
        destruct (ensure_schema_calls E n st1) as [rs st2]. cbn [fst snd] in *.
        exists (EvExecuteSql (create_schema_sql (cache (self st))) :: evs).
        split; [rewrite Hl', Hl, <- app_assoc; reflexivity|].
        split; [constructor; [reflexivity | rewrite <- Hs; exact Hall]|].
        unfold count_raised in *. cbn [filter returned negb List.length].
        split; lia.
  - intros a b -> Hin.
    rewrite ensure_schema_calls_app.
    rewrite (ensure_schema_calls_memo_hit b _
               (ensure_schema_calls_returned_sets_memo a st Hin)).
    reflexivity.
Qed.

(** *** Credentials *)

(** C8.  With nothing cached: a configured (non-empty) credentials path makes
    the one call [from_service_account_file(path)], otherwise the one call is
    [google.auth.default()]; what the call returns is stored in
    [_credentials] and returned, and if it raises nothing is stored.  With a
    value cached it is returned and nothing else happens; so after any call
    that returned, every further call returns the same value and touches
    neither the world nor the call log. *)
Theorem get_credentials_resolves_in_order_and_caches :
  forall st,
    (forall c, _credentials (self st) = Some c ->
               _get_credentials E st = (Ok c, st))
    /\ (forall p,
           _credentials (self st) = None ->
           credentials_path (cache (self st)) = Some p ->
           p <> EmptyString ->
           _get_credentials E st =
           match from_service_account_file E p (world st) with
           | (Ok c, w) =>
               (Ok c, mkSt (with_credentials c (self st)) w
                           (log st ++ [EvFromServiceAccountFile p]))
           | (Raise ex, w) =>
               (Raise ex, mkSt (self st) w
                               (log st ++ [EvFromServiceAccountFile p]))
           end)
    /\ (_credentials (self st) = None ->
        truthy_str (credentials_path (cache (self st))) = false ->
        _get_credentials E st =
        match google_auth_default E (world st) with
        | (Ok (c, _), w) =>
            (Ok c, mkSt (with_credentials c (self st)) w
                        (log st ++ [EvAuthDefault]))
        | (Raise ex, w) =>
            (Raise ex, mkSt (self st) w (log st ++ [EvAuthDefault]))
        end)
    /\ (forall c st1,
           _get_credentials E st = (Ok c, st1) ->
           _credentials (self st1) = Some c
           /\ _get_credentials E st1 = (Ok c, st1)).
Proof.
  intros st.
  assert (Hcached : forall st0 c, _credentials (self st0) = Some c ->
                                  _get_credentials E st0 = (Ok c, st0)).
  { intros st0 c H. unfold _get_credentials, bind, get_self, ret.
    rewrite H. reflexivity. }
  split; [apply Hcached|]. split; [|split].
  - intros p Hnone Hpath Hne.
    unfold _get_credentials, bind, get_self, call, put_self, ret, with_credentials.
    rewrite Hnone, Hpath. destruct p as [|ch p]; [contradiction|].
    cbn [truthy_str].
    destruct (from_service_account_file E _ (world st)) as [[c|ex] w]; reflexivity.
  - intros Hnone Hpath.
    unfold _get_credentials, bind, get_self, call, put_self, ret, with_credentials.
    rewrite Hnone, Hpath.
    destruct (google_auth_default E (world st)) as [[[c proj]|ex] w]; reflexivity.
  - intros c st1 Hrun.
    assert (Hc : _credentials (self st1) = Some c).
    { revert Hrun.
      unfold _get_credentials, bind, get_self, call, put_self, ret.
      destruct (_credentials (self st)) as [c0|] eqn:Hcur.
      - intros [= <- <-]. exact Hcur.
      - destruct (truthy_str (credentials_path (cache (self st)))).
        + destruct (from_service_account_file E _ (world st)) as [[c1|ex] w];
            [intros [= <- <-]; reflexivity | discriminate].
        + destruct (google_auth_default E (world st)) as [[[c1 proj]|ex] w];
            [intros [= <- <-]; reflexivity | discriminate]. }
    split; [exact Hc | apply Hcached, Hc].
Qed.

(** *** Loading files into a new table *)

Lemma get_credentials_log st r st1 :
  _get_credentials E st = (r, st1) ->
  cache (self st1) = cache (self st)
  /\ exists evs,
       log st1 = (log st ++ evs)%list
       /\ (evs = []
           \/ (exists p, evs = [EvFromServiceAccountFile p])
           \/ evs = [EvAuthDefault]).
Proof.
  unfold _get_credentials, bind, get_self, call, put_self, ret.
  destruct (_credentials (self st)) as [c0|].
  - intros [= <- <-]. split; [reflexivity|].
    exists []. rewrite app_nil_r. auto.
  - destruct (truthy_str (credentials_path (cache (self st)))).
    + destruct (from_service_account_file E _ (world st)) as [[c1|ex] w];
        intros [= <- <-]; (split; [reflexivity|]);
        eexists; (split; [reflexivity|]); right; left; eexists; reflexivity.
    + destruct (google_auth_default E (world st)) as [[[c1 proj]|ex] w];
        intros [= <- <-]; (split; [reflexivity|]);
        eexists; (split; [reflexivity|]); right; right; reflexivity.
Qed.

Lemma load_one_file_log creds (tid stream_name f : string) st r st1 :
  load_one_file E creds tid stream_name f st = (r, st1) ->
  self st1 = self st
  /\ match r with
     | Ok _ =>
         exists j,
           log st1 = (log st ++ [EvOpen f;
                                 EvLoadTableFromFile f tid
                                   (load_job_config E stream_name) (Some j);
                                 EvClose f; EvJobResult j true])%list
     | Raise _ =>
         log st1 = (log st ++ [EvOpen f])%list
         \/ log st1 = (log st ++ [EvOpen f;
                                  EvLoadTableFromFile f tid
                                    (load_job_config E stream_name) None;
                                  EvClose f])%list
         \/ exists j,
              log st1 = (log st ++ [EvOpen f;
                                    EvLoadTableFromFile f tid
                                      (load_job_config E stream_name) (Some j);
                                    EvClose f; EvJobResult j false])%list
     end.
Proof.
  unfold load_one_file, bind, call, finally, emit.
  destruct (path_open E f (world st)) as [[u|ex] w0]; cbn [world self log].
  - destruct (client_load_table_from_file E creds f tid _ w0) as [[j|ex] w1];
      cbn [world self log job_of].
    + destruct (load_job_result E j w1) as [[u'|ex] w2];
        intros [= <- <-]; cbn [self log returned]; (split; [reflexivity|]).
      * exists j. rewrite <- !app_assoc. reflexivity.
      * right; right. exists j. rewrite <- !app_assoc. reflexivity.
    + intros [= <- <-]; cbn [self log]. split; [reflexivity|].
      right; left. rewrite <- !app_assoc. reflexivity.
  - intros [= <- <-]; cbn [self log]. split; [reflexivity|]. left; reflexivity.
Qed.

Lemma load_files_protocol creds (tid stream_name : string) (files : list string) :
  forall st r st1,
    load_files E creds tid stream_name files st = (r, st1) ->
    self st1 = self st
    /\ exists evs,
         log st1 = (log st ++ evs)%list
         /\ load_protocol E tid (load_job_config E stream_name) files evs
              (returned r).
Proof.
  induction files as [|f fs IH]; intros st r st1.
  - cbn [load_files]. unfold ret. intros [= <- <-].
    split; [reflexivity|]. exists []. rewrite app_nil_r.
    split; [reflexivity | constructor].
  - cbn [load_files]. unfold bind.
    destruct (load_one_file E creds tid stream_name f st) as [[u|ex] st0] eqn:H1.
    + destruct (load_one_file_log _ _ _ _ _ _ _ H1) as (Hs & j & Hl).
      intros H2. destruct (IH _ _ _ H2) as (Hs' & evs & Hl' & Hp).
      split; [congruence|].
      eexists. split.
      * rewrite Hl', Hl, <- app_assoc. reflexivity.
      * cbn [app]. apply lp_loaded. exact Hp.
    + destruct (load_one_file_log _ _ _ _ _ _ _ H1) as (Hs & Hl).
      intros [= <- <-]. split; [exact Hs|]. cbn [returned].
      destruct Hl as [Hl|[Hl|[j Hl]]]; eexists; (split; [exact Hl|]);
        constructor.
Qed.

Lemma load_protocol_schema dest (stream_name : string) files evs b :
  load_protocol E dest (load_job_config E stream_name) files evs b ->
  Forall (load_event_uses_declared_schema E stream_name) evs.
Proof.
  assert (Hcfg : forall p d j,
             load_event_uses_declared_schema E stream_name
               (EvLoadTableFromFile p d (load_job_config E stream_name) j)).
  { intros; cbn. split; reflexivity. }
  induction 1; repeat (constructor; try exact I; try apply Hcfg).
  assumption.
Qed.

(** C6.  The first call [_write_files_to_new_table] makes is the creation of
    the staging table, and it is made once; every load job submitted after it
    carries the line-delimited JSON format and, as its schema, the columns of
    the stream with the types the converter gives to the catalog's
    descriptors - an expression in which neither the files nor the world
    occur; and if the creation raised, nothing follows it. *)
Theorem write_files_creates_table_first_with_declared_schema :
  forall (files : list string) (stream_name batch_id : string) st,
    exists evs,
      log (snd (_write_files_to_new_table E files stream_name batch_id st))
      = (log st ++ EvCreateTableForLoading stream_name batch_id :: evs)%list
      /\ Forall (load_event_uses_declared_schema E stream_name) evs
      /\ (returned (fst (create_table_for_loading E stream_name batch_id
                           (world st))) = true
          \/ evs = []).
Proof.
  intros files stream_name batch_id st.
  unfold _write_files_to_new_table, bind, _create_table_for_loading, call,
    get_self, ret.
  destruct (create_table_for_loading E stream_name batch_id (world st))
    as [[name|ex] w]; cbn [fst snd returned self world log].
  2:{ exists []. cbn [log]. auto. }
  set (st0 := mkSt (self st) w
                   (log st ++ [EvCreateTableForLoading stream_name batch_id])).
  destruct (_get_credentials E st0) as [[creds|ex] st1] eqn:Hc.
  - destruct (get_credentials_log _ _ _ Hc) as (_ & cevs & Hl1 & Hshape).
    destruct (load_files E creds _ stream_name files st1) as [r st2] eqn:Hf.
    destruct (load_files_protocol _ _ _ _ _ _ _ Hf) as (_ & evs & Hl2 & Hp).
    exists (cevs ++ evs)%list.
    assert (Hlog : log st2
                   = (log st ++ EvCreateTableForLoading stream_name batch_id
                        :: cevs ++ evs)%list).
    { rewrite Hl2, Hl1. subst st0. cbn [log].
      rewrite <- !app_assoc. reflexivity. }
    split; [destruct r; cbn [snd]; exact Hlog|].
    split; [|left; reflexivity].
    apply Forall_app. split; [|eapply load_protocol_schema; exact Hp].
    destruct Hshape as [->|[[p ->]| ->]]; repeat constructor.
  - destruct (get_credentials_log _ _ _ Hc) as (_ & cevs & Hl1 & Hshape).
    exists cevs. cbn [snd]. split.
    + rewrite Hl1. subst st0. cbn [log]. rewrite <- app_assoc. reflexivity.
    + split; [|left; reflexivity].
      destruct Hshape as [->|[[p ->]| ->]]; repeat constructor.
Qed.

Lemma load_files_run creds (tid stream_name : string) (files : list string) :
  forall st r st',
    load_files E creds tid stream_name files st = (r, st') ->
    self st' = self st
    /\ exists evs,
         log st' = (log st ++ evs)%list
         /\ load_run E creds tid (load_job_config E stream_name)
              (world st) files evs (world st') r.
Proof.
  induction files as [|f fs IH]; intros st r st'.
  - cbn [load_files]. unfold ret. intros [= <- <-].
    split; [reflexivity|]. exists []. rewrite app_nil_r.
    split; [reflexivity | constructor].
  - cbn [load_files]. unfold bind at 1.
    unfold load_one_file, bind, call, finally, emit.
    destruct (path_open E f (world st)) as [[u|ex] w1] eqn:Hopen;
      cbn [world self log].
    2:{ intros [= <- <-]. cbn [self log world]. split; [reflexivity|].
        eexists. split; [reflexivity|]. econstructor; exact Hopen. }
    destruct (client_load_table_from_file E creds f tid _ w1)
      as [[j|ex] w2] eqn:Hload; cbn [world self log job_of].
    2:{ intros [= <- <-]. cbn [self log world]. split; [reflexivity|].
        eexists. split; [rewrite <- !app_assoc; reflexivity|].
        eapply lr_submit_raised; eassumption. }
    destruct (load_job_result E j w2) as [[u'|ex] w3] eqn:Hwait;
      cbn [returned].
    2:{ intros [= <- <-]. cbn [self log world]. split; [reflexivity|].
        eexists. split; [rewrite <- !app_assoc; reflexivity|].
        eapply lr_wait_raised; eassumption. }
    intros Hrest. destruct (IH _ _ _ Hrest) as (Hs & evs & Hl & Hrun).
    cbn [self log world] in Hs, Hl, Hrun.
    split; [exact Hs|].
    eexists. split.
    + rewrite Hl, <- !app_assoc. reflexivity.
    + cbn [app]. eapply lr_loaded; eassumption.
Qed.

Lemma load_run_functional creds dest cfg (w : World E) (files : list string)
    evs1 w1 r1 :
  load_run E creds dest cfg w files evs1 w1 r1 ->
  forall evs2 w2 r2,
    load_run E creds dest cfg w files evs2 w2 r2 ->
    evs2 = evs1 /\ w2 = w1 /\ r2 = r1.
Proof.
  induction 1 as [w|w f fs ex w1 Ho|w f fs u w1 ex w2 Ho Hl
                 |w f fs u w1 j w2 ex w3 Ho Hl Hw
                 |w f fs u w1 j w2 u' w3 evs w' r Ho Hl Hw _ IH];
    intros evs2 wB r2 H2; inversion H2; subst;
    repeat match goal with
           | H1 : ?x = _, H2 : ?x = _ |- _ =>
               rewrite H1 in H2; injection H2; intros; subst; clear H2
           end;
    try discriminate; auto.
  match goal with
  | H : load_run _ _ _ _ _ _ _ _ _ |- _ =>
      destruct (IH _ _ _ H) as (-> & -> & ->)
  end.
  auto.
Qed.

(** C7.  [_write_files_to_new_table] first creates the staging table and
    resolves the credentials; a raise of either ends the call there.  From
    then on its calls, its final world and its outcome are those of the load
    loop as the answers of the collaborators fix it ([load_run], which
    nothing else satisfies): the files are taken in the order given; each is
    opened, submitted, closed and its job awaited, and the next file is only
    opened once that wait has returned; the first call to raise ends the
    method with what it raised; and the staging table's name is returned
    exactly when the wait of every file has returned. *)
Theorem write_files_loads_in_order_waiting_for_each :
  forall (files : list string) (stream_name batch_id : string) st,
    match create_table_for_loading E stream_name batch_id (world st) with
    | (Raise ex, w) =>
        _write_files_to_new_table E files stream_name batch_id st
        = (Raise ex,
           mkSt (self st) w
                (log st ++ [EvCreateTableForLoading stream_name batch_id]))
    | (Ok name, w) =>
        match _get_credentials E
                (mkSt (self st) w
                      (log st ++ [EvCreateTableForLoading stream_name batch_id]))
        with
        | (Raise ex, st1) =>
            _write_files_to_new_table E files stream_name batch_id st
            = (Raise ex, st1)
        | (Ok creds, st1) =>
            exists (evs : list (Event E)) (w' : World E) (r : Result unit),
              load_run E creds (table_id_of (cache (self st)) name)
                (load_job_config E stream_name) (world st1) files evs w' r
              /\ (forall evs2 w2 r2,
                     load_run E creds (table_id_of (cache (self st)) name)
                       (load_job_config E stream_name) (world st1) files
                       evs2 w2 r2 ->
                     evs2 = evs /\ w2 = w' /\ r2 = r)
              /\ _write_files_to_new_table E files stream_name batch_id st
                 = (match r with Ok _ => Ok name | Raise ex => Raise ex end,
                    mkSt (self st1) w' (log st1 ++ evs))
        end
    end.
Proof.
  intros files stream_name batch_id st.
  unfold _write_files_to_new_table, bind, _create_table_for_loading, call,
    get_self, ret.
  destruct (create_table_for_loading E stream_name batch_id (world st))
    as [[name|ex] w]; [|reflexivity].
  cbn [self].
  destruct (_get_credentials E _) as [[creds|ex] st1]; [|reflexivity].
  destruct (load_files E creds _ stream_name files st1) as [r st2] eqn:Hf.
  destruct (load_files_run _ _ _ _ _ _ _ Hf) as (Hs & evs & Hl & Hrun).
  exists evs, (world st2), r.
  split; [exact Hrun|]. split; [exact (load_run_functional _ _ _ _ _ _ _ _ Hrun)|].
  destruct st2 as [s2 w2 l2]. cbn [self world log] in *. subst s2 l2.
  destruct r; reflexivity.
Qed.

End Correctness.

(* ================================================================== *)
(** ** The theorems at work on the scripted warehouse *)
(* ================================================================== *)

(** C1, as the specification words it, fails.  On a warehouse with no table
    at all the final table ["users"] does not exist, and the swap of the
    staging table ["users_b1"] into it still submits the rename-away to
    ["users_deleteme"] and the drop. *)
Lemma swap_first_load_does_not_skip :
  fst (_table_exists Mock.env "users" Mock.first_load_state) = Ok false
  /\ log (snd (_swap_temp_table_with_final_table Mock.env "users"
                 (Some "users_b1") (Some "users") Mock.first_load_state))
     = [EvExecuteSql
          ("ALTER TABLE `airbyte_raw`.`users` RENAME TO users_deleteme;" ++ nl ++
           "ALTER TABLE `airbyte_raw`.`users_b1` RENAME TO users;" ++ nl ++
           "DROP TABLE `airbyte_raw`.`users_deleteme`;")]
  /\ skips_rename_away_and_drop Mock.env
       (log (snd (_swap_temp_table_with_final_table Mock.env "users"
                    (Some "users_b1") (Some "users") Mock.first_load_state)))
     = false.
Proof. repeat split. Qed.

Lemma swap_rejects_unset_names_witness :
  exists ex,
    _swap_temp_table_with_final_table Mock.env "users" None (Some "users")
      Mock.first_load_state
    = (Raise ex, Mock.first_load_state)
    /\ exn_class ex = PyAirbyteInternalError.
Proof.
  apply (swap_rejects_unset_names Mock.env Mock.first_load_state "users"
           None (Some "users")).
  left. reflexivity.
Defined.

Lemma ensure_schema_exists_swallows_only_duplicates_witness :
  (fst (_ensure_schema_exists Mock.env Mock.duplicate_state) = Ok tt
   /\ _schema_exists (self (snd (_ensure_schema_exists Mock.env
                                   Mock.duplicate_state))) = Some true)
  /\ fst (_ensure_schema_exists Mock.env Mock.denied_state)
     = Raise Mock.denied_error.
Proof.
  split.
  - apply (proj1 (ensure_schema_exists_swallows_only_duplicates Mock.env
                    Mock.duplicate_state Mock.duplicate_error Mock.empty_world
                    eq_refl eq_refl)).
    reflexivity.
  - apply (proj2 (ensure_schema_exists_swallows_only_duplicates Mock.env
                    Mock.denied_state Mock.denied_error
                    (Mock.mkMock [Some Mock.denied_error] [] [] [] 0)
                    eq_refl eq_refl)).
    reflexivity.
Defined.

(** C4, as the specification words it, fails.  A caller whose first call was
    denied and who calls again sees the creation command submitted a second
    time: two calls, two [CREATE SCHEMA] commands. *)
Lemma ensure_schema_exists_recreates_after_failure :
  fst (ensure_schema_calls Mock.env 2 Mock.denied_state)
  = [Raise Mock.denied_error; Raise Mock.denied_error]
  /\ log (snd (ensure_schema_calls Mock.env 2 Mock.denied_state))
     = [EvExecuteSql "CREATE SCHEMA IF NOT EXISTS airbyte_raw";
        EvExecuteSql "CREATE SCHEMA IF NOT EXISTS airbyte_raw"]
  /\ log (run_calls Mock.env [CallEnsureSchemaExists; CallEnsureSchemaExists]
            Mock.denied_state)
     = [EvExecuteSql "CREATE SCHEMA IF NOT EXISTS airbyte_raw";
        EvExecuteSql "CREATE SCHEMA IF NOT EXISTS airbyte_raw"].
Proof. repeat split. Qed.

Lemma ensure_schema_exists_memoized_witness :
  ensure_schema_calls Mock.env 3 Mock.duplicate_state
  = ((fst (ensure_schema_calls Mock.env 1 Mock.duplicate_state)
        ++ repeat (Ok tt) 2)%list,
     snd (ensure_schema_calls Mock.env 1 Mock.duplicate_state)).
Proof.
  apply (proj2 (proj2 (proj2 (ensure_schema_exists_memoized Mock.env 3
                                Mock.duplicate_state))) 1 2).
  - reflexivity.
  - left. reflexivity.
Defined.



Lemma get_credentials_resolves_in_order_and_caches_witness :
  _get_credentials Mock.env Mock.keyed_state
  = (Ok "service-account:/secrets/key.json",
     mkSt (@with_credentials Mock.env "service-account:/secrets/key.json"
             (self Mock.keyed_state))
          Mock.empty_world [EvFromServiceAccountFile "/secrets/key.json"])
  /\ _get_credentials Mock.env
       (snd (_get_credentials Mock.env Mock.first_load_state))
     = (Ok "ambient", snd (_get_credentials Mock.env Mock.first_load_state)).
Proof.
  split.
  - apply (proj1 (proj2 (get_credentials_resolves_in_order_and_caches
                           Mock.env Mock.keyed_state))
             "/secrets/key.json"); [reflexivity | reflexivity | discriminate].
  - apply (proj2 (proj2 (proj2 (proj2
             (get_credentials_resolves_in_order_and_caches
                Mock.env Mock.first_load_state)))
             "ambient" _ eq_refl)).
Defined.

Lemma get_tables_list_strips_schema_prefix_witness :
  exists out st',
    _get_tables_list Mock.env Mock.listing_state = (Ok out, st')
    /\ self st' = self Mock.listing_state
    /\ Forall2
         (fun table name =>
            (forall rest, table = "airbyte_raw" ++ "." ++ rest -> name = rest)
            /\ (py_startswith table ("airbyte_raw" ++ ".") = true ->
                exists rest,
                  table = "airbyte_raw" ++ "." ++ rest /\ name = rest)
            /\ (py_startswith table ("airbyte_raw" ++ ".") = false ->
                name = table))
         ["airbyte_raw.users"; "orders"] out.
Proof.
  apply (get_tables_list_strips_schema_prefix Mock.env Mock.listing_state
           ["airbyte_raw.users"; "orders"]
           (Mock.mkMock [] [] ["airbyte_raw.users"; "orders"] [] 0)).
  reflexivity.
Defined.

(* ================================================================== *)
(** ** Further properties of the module *)
(* ================================================================== *)

(** *** Substrings and cancellation *)

Lemma append_inj_l (s a b : string) : s ++ a = s ++ b -> a = b.
Proof. induction s as [|c s IH]; simpl; [auto | intros [= H]; auto]. Qed.

Lemma append_inj_r (u : string) :
  forall s t : string, s ++ u = t ++ u -> s = t.
Proof.
  induction s as [|c s IH]; destruct t as [|d t]; simpl; intros H.
  - reflexivity.
  - apply (f_equal String.length) in H. cbn [String.length] in H.
    rewrite length_app in H. lia.
  - apply (f_equal String.length) in H. cbn [String.length] in H.
    rewrite length_app in H. lia.
  - injection H as -> H. f_equal. exact (IH _ H).
Qed.

Lemma py_in_hit (needle hay : string) :
  String.prefix needle hay = true -> py_in needle hay = true.
Proof. intros H. destruct hay; cbn [py_in]; rewrite H; reflexivity. Qed.

Lemma py_in_cons (needle : string) (c : ascii) (hay : string) :
  py_in needle hay = true -> py_in needle (String c hay) = true.
Proof.
  intros H. cbn [py_in]. rewrite H.
  destruct (String.prefix needle (String c hay)); reflexivity.
Qed.

Lemma py_in_app_r (needle s t : string) :
  py_in needle t = true -> py_in needle (s ++ t) = true.
Proof.
  intros H. induction s as [|c s IH]; [exact H|].
  cbn [append]. apply py_in_cons, IH.
Qed.

Lemma py_in_iff (needle hay : string) :
  py_in needle hay = true <-> exists a b, hay = a ++ needle ++ b.
Proof.
  split.
  - induction hay as [|c hay IH]; cbn [py_in].
    + destruct (String.prefix needle "") eqn:P; [|discriminate].
      intros _. destruct (prefix_split _ _ P) as [r Hr].
      exists EmptyString, r. exact Hr.
    + destruct (String.prefix needle (String c hay)) eqn:P.
      * intros _. destruct (prefix_split _ _ P) as [r Hr].
        exists EmptyString, r. exact Hr.
      * intros H. destruct (IH H) as (a & b & ->).
        exists (String c a), b. reflexivity.
  - intros (a & b & ->). apply py_in_app_r, py_in_hit, prefix_app.
Qed.

(** *** Quoting and qualifying *)

Lemma lower_char_backtick (c : ascii) :
  Ascii.eqb (lower_char c) "`"%char = Ascii.eqb c "`"%char.
Proof. destruct c as [[] [] [] [] [] [] [] []]; vm_compute; reflexivity. Qed.

Lemma count_char_app (c : ascii) (s t : string) :
  count_char c (s ++ t) = count_char c s + count_char c t.
Proof. induction s as [|d s IH]; simpl; [reflexivity | rewrite IH; lia]. Qed.

Lemma count_char_lower_backtick (s : string) :
  count_char "`"%char (py_lower s) = count_char "`"%char s.
Proof.
  induction s as [|d s IH]; simpl; [reflexivity|].
  rewrite lower_char_backtick, IH. reflexivity.
Qed.

(** X1.  Two identifiers get the same quoted form exactly when they have the
    same lowercase form: quoting identifies identifiers up to case and
    nothing else. *)
Theorem quote_identifier_equal_iff_lower_equal :
  forall a b : string,
    _quote_identifier a = _quote_identifier b <-> py_lower a = py_lower b.
Proof.
  intros a b. unfold _quote_identifier. split.
  - intros H. apply append_inj_l in H. exact (append_inj_r _ _ _ H).
  - intros ->. reflexivity.
Qed.

(** X2.  Quoting does not escape: the quoted form has exactly the backticks
    of the identifier plus the two that wrap it, so an identifier that
    contains a backtick closes the quotation early. *)
Theorem quote_identifier_does_not_escape_backticks :
  forall identifier : string,
    count_char "`"%char (_quote_identifier identifier)
    = 2 + count_char "`"%char identifier.
Proof.
  intros identifier. unfold _quote_identifier.
  rewrite !count_char_app, count_char_lower_backtick. cbn. lia.
Qed.

(** X3.  Within one cache, different table names have different fully
    qualified names; the table name is used as it is, so names that differ
    only in letter case stay apart (unlike under [_quote_identifier]). *)
Theorem fully_qualified_distinguishes_table_names :
  forall (c : Cache) (a b : string),
    a <> b -> _fully_qualified c a <> _fully_qualified c b.
Proof.
  intros c a b Hne H. apply Hne. unfold _fully_qualified in H.
  apply append_inj_l in H. apply append_inj_l in H. apply append_inj_l in H.
  exact (append_inj_r _ _ _ H).
Qed.

Lemma fully_qualified_distinguishes_table_names_witness :
  _fully_qualified Mock.the_cache "Users" <> _fully_qualified Mock.the_cache "users".
Proof.
  apply (fully_qualified_distinguishes_table_names Mock.the_cache "Users" "users").
  discriminate.
Defined.

Section MoreCorrectness.

Context (E : Env).

Implicit Types (st : St E) (ex : PyExn).

(** *** How the state moves *)

Lemma evolves_refl st : evolves E st st.
Proof.
  split; [reflexivity|]. split; [auto|]. split; [auto|].
  exists []. rewrite app_nil_r. auto.
Qed.

Lemma evolves_trans st1 st2 st3 :
  evolves E st1 st2 -> evolves E st2 st3 -> evolves E st1 st3.
Proof.
  intros (Hc1 & Hm1 & Hk1 & evs1 & Hl1 & Hs1 & Hr1)
         (Hc2 & Hm2 & Hk2 & evs2 & Hl2 & Hs2 & Hr2).
  split; [congruence|]. split; [auto|]. split; [auto|].
  exists (evs1 ++ evs2)%list. split; [rewrite Hl2, Hl1, app_assoc; reflexivity|].
  split.
  - intros Hm. rewrite forallb_app, (Hs1 Hm). cbn [andb].
    rewrite <- Hc1. apply Hs2, Hm1, Hm.
  - intros Hk. rewrite forallb_app, (Hr1 Hk). cbn [andb].
    apply Hr2. destruct (_credentials (self st1)) as [c|] eqn:Hcur;
      [|contradiction]. rewrite (Hk1 c eq_refl). discriminate.
Qed.

(** A state that differs from [st] in the world and in one more logged call
    that is neither SQL nor a credential lookup. *)
Lemma evolves_one_event st (w : World E) (e : Event E) :
  is_execute_sql E e = false ->
  is_credential_event E e = false ->
  evolves E st (mkSt (self st) w (log st ++ [e])).
Proof.
  intros Hsql Hcred. cbn [self log].
  split; [reflexivity|]. split; [auto|]. split; [auto|].
  exists [e]. split; [reflexivity|]. cbn [forallb]. rewrite Hcred.
  split; intros _; [|reflexivity].
  destruct e; try discriminate; reflexivity.
Qed.

Lemma get_credentials_step st :
  (exists c, _credentials (self st) = Some c
             /\ _get_credentials E st = (Ok c, st))
  \/ (_credentials (self st) = None
      /\ exists (e : Event E) (w : World E),
           is_credential_event E e = true
           /\ ((exists c,
                   _get_credentials E st
                   = (Ok c, mkSt (with_credentials c (self st)) w
                                 (log st ++ [e])))
               \/ (exists ex,
                      _get_credentials E st
                      = (Raise ex, mkSt (self st) w (log st ++ [e]))))).
Proof.
  unfold _get_credentials, bind, get_self, call, put_self, ret, with_credentials.
  destruct (_credentials (self st)) as [c0|].
  - left. exists c0. auto.
  - right. split; [reflexivity|].
    destruct (truthy_str (credentials_path (cache (self st)))).
    + destruct (from_service_account_file E _ (world st)) as [[c1|ex] w];
        refine (ex_intro _ (EvFromServiceAccountFile _)
                  (ex_intro _ w (conj eq_refl _)));
        [left; exists c1 | right; exists ex]; reflexivity.
    + destruct (google_auth_default E (world st)) as [[[c1 proj]|ex] w];
        refine (ex_intro _ EvAuthDefault (ex_intro _ w (conj eq_refl _)));
        [left; exists c1 | right; exists ex]; reflexivity.
Qed.

Lemma evolves_get_credentials st :
  evolves E st (snd (_get_credentials E st)).
Proof.
  destruct (get_credentials_step st)
    as [(c & Hc & ->)|(Hnone & e & w & He & [(c & ->)|(ex & ->)])];
    cbn [snd].
  - apply evolves_refl.
  - split; [reflexivity|]. split; [auto|].
    split; [intros c0 H; congruence|].
    exists [e]. cbn [log]. split; [reflexivity|]. split.
    + intros _. destruct e; try discriminate; reflexivity.
    + intros H. contradiction.
  - split; [reflexivity|]. split; [auto|]. split; [auto|].
    exists [e]. cbn [log]. split; [reflexivity|]. split.
    + intros _. destruct e; try discriminate; reflexivity.
    + intros H. contradiction.
Qed.

Lemma evolves_ensure_schema_exists st :
  evolves E st (snd (_ensure_schema_exists E st)).
Proof.
  rewrite ensure_schema_exists_unfold.
  destruct (truthy_bool (_schema_exists (self st))) eqn:Hmemo;
    [apply evolves_refl|].
  assert (Hgen : forall (s : Self E) (w : World E),
             cache s = cache (self st) ->
             _credentials s = _credentials (self st) ->
             evolves E st (mkSt s w (log (after_create st w)))).
  { intros s w Hc Hk. split; [exact Hc|]. cbn [self log after_create].
    split; [rewrite Hmemo; discriminate|].
    split; [intros c H; congruence|].
    eexists. split; [reflexivity|]. split.
    - rewrite Hmemo; discriminate.
    - intros _. reflexivity. }
  destruct (execute_sql E _ (world st)) as [[u|ex] w]; cbn [snd].
  - apply Hgen; reflexivity.
  - destruct (py_in "already exists" (exn_str ex)); cbn [snd].
    + apply Hgen; reflexivity.
    + apply (Hgen (self st) w); reflexivity.
Qed.

Lemma swap_script_is_not_create_schema (c c' : Cache) (temp final : string) :
  String.eqb (py_join nl (swap_commands c temp final)) (create_schema_sql c')
  = false.
Proof. reflexivity. Qed.

Lemma evolves_swap (stream_name : string) (temp final : option string) st :
  evolves E st
    (snd (_swap_temp_table_with_final_table E stream_name temp final st)).
Proof.
  unfold _swap_temp_table_with_final_table, raise, bind, get_self,
    _execute_sql, call.
  destruct final as [f|]; [|apply evolves_refl].
  destruct temp as [t|]; [|apply evolves_refl].
  destruct (execute_sql E _ (world st)) as [r w]. cbn [snd].
  split; [reflexivity|]. split; [auto|]. split; [auto|].
  eexists. cbn [log]. split; [reflexivity|]. split; intros _; [|reflexivity].
  cbn [forallb is_create_schema_event].
  rewrite swap_script_is_not_create_schema. reflexivity.
Qed.

Lemma evolves_table_exists (table_name : string) st :
  evolves E st (snd (_table_exists E table_name st)).
Proof.
  unfold _table_exists, bind.
  pose proof (evolves_get_credentials st) as Hcred.
  destruct (_get_credentials E st) as [[c|ex] st1]; cbn [snd] in *;
    [|exact Hcred].
  apply (evolves_trans _ _ _ Hcred).
  unfold get_self, try_except, bind, call, ret, raise.
  destruct (client_get_table E c _ (world st1)) as [[u|ex] w].
  - cbn [snd]. apply evolves_one_event; reflexivity.
  - destruct (exn_class ex); cbn [snd]; apply evolves_one_event; reflexivity.
Qed.

Lemma evolves_get_tables_list st :
  evolves E st (snd (_get_tables_list E st)).
Proof.
  unfold _get_tables_list, bind, get_self, call, ret.
  destruct (inspector_get_table_names E _ (world st)) as [[ts|ex] w];
    cbn [snd]; apply evolves_one_event; reflexivity.
Qed.

Lemma evolves_quiet st st' (evs : list (Event E)) :
  self st' = self st ->
  log st' = (log st ++ evs)%list ->
  forallb (fun e => negb (is_execute_sql E e) && negb (is_credential_event E e))
          evs = true ->
  evolves E st st'.
Proof.
  intros Hs Hl Hq. rewrite forallb_forall in Hq.
  split; [congruence|]. split; [congruence|]. split; [congruence|].
  exists evs. split; [exact Hl|].
  split; intros _; apply forallb_forall; intros e He;
    specialize (Hq e He); apply andb_prop in Hq as [Hsql Hcred].
  - destruct e; try reflexivity; discriminate.
  - exact Hcred.
Qed.

Lemma load_protocol_quiet dest cfg (files : list string) evs b :
  load_protocol E dest cfg files evs b ->
  forallb (fun e => negb (is_execute_sql E e) && negb (is_credential_event E e))
          evs = true.
Proof. induction 1; cbn; auto. Qed.

Lemma evolves_load_files creds (tid stream_name : string) (files : list string) st :
  evolves E st (snd (load_files E creds tid stream_name files st)).
Proof.
  destruct (load_files E creds tid stream_name files st) as [r st1] eqn:Hrun.
  destruct (load_files_protocol _ _ _ _ _ _ _ _ Hrun) as (Hs & evs & Hl & Hp).
  cbn [snd]. exact (evolves_quiet _ _ _ Hs Hl (load_protocol_quiet _ _ _ _ _ Hp)).
Qed.

Lemma evolves_write_files (files : list string) (stream_name batch_id : string) st :
  evolves E st (snd (_write_files_to_new_table E files stream_name batch_id st)).
Proof.
  unfold _write_files_to_new_table, bind, _create_table_for_loading, call,
    get_self, ret.
  destruct (create_table_for_loading E stream_name batch_id (world st))
    as [[name|ex] w]; cbn [snd self]; [|apply evolves_one_event; reflexivity].
  eapply evolves_trans;
    [apply (evolves_one_event st w
              (EvCreateTableForLoading stream_name batch_id)); reflexivity|].
  set (st0 := mkSt (self st) w _).
  pose proof (evolves_get_credentials st0) as Hc.
  destruct (_get_credentials E st0) as [[creds|ex] st1]; cbn [snd] in *;
    [|exact Hc].
  apply (evolves_trans _ _ _ Hc).
  pose proof (evolves_load_files creds
                (table_id_of (cache (self st)) name) stream_name files st1) as Hf.
  destruct (load_files E creds _ stream_name files st1) as [[u|ex] st2];
    cbn [snd] in *; exact Hf.
Qed.

Lemma evolves_run_call (c : MethodCall) st : evolves E st (run_call E c st).
Proof.
  destruct c; cbn [run_call].
  - apply evolves_ensure_schema_exists.
  - apply evolves_get_credentials.
  - apply evolves_table_exists.
  - apply evolves_get_tables_list.
  - apply evolves_write_files.
  - apply evolves_swap.
Qed.

Lemma evolves_run_calls (cs : list MethodCall) :
  forall st, evolves E st (run_calls E cs st).
Proof.
  unfold run_calls.
  induction cs as [|c cs IH]; intros st; cbn [fold_left].
  - apply evolves_refl.
  - exact (evolves_trans _ _ _ (evolves_run_call c st) (IH _)).
Qed.

(** *** What no sequence of calls undoes *)

(** X4.  Over any sequence of calls of the six methods, made in any order on
    one instance and whether or not individual calls raise: the cache
    configuration stays the same, a schema memo that is set stays set, cached
    credentials stay the same credentials, and the call log is only ever
    extended. *)
Theorem instance_state_only_gains :
  forall (cs : list MethodCall) st,
    cache (self (run_calls E cs st)) = cache (self st)
    /\ (truthy_bool (_schema_exists (self st)) = true ->
        truthy_bool (_schema_exists (self (run_calls E cs st))) = true)
    /\ (forall c, _credentials (self st) = Some c ->
                  _credentials (self (run_calls E cs st)) = Some c)
    /\ exists evs, log (run_calls E cs st) = (log st ++ evs)%list.
Proof.
  intros cs st.
  destruct (evolves_run_calls cs st) as (Hc & Hm & Hk & evs & Hl & _).
  repeat split; auto. exists evs. exact Hl.
Qed.

(** X5.  Once a call of [_ensure_schema_exists] has returned, no later
    sequence of method calls hands the schema-creation command to
    [_execute_sql] again. *)
Theorem schema_created_at_most_once_after_success :
  forall (cs : list MethodCall) st,
    fst (_ensure_schema_exists E st) = Ok tt ->
    exists evs,
      log (run_calls E cs (snd (_ensure_schema_exists E st)))
      = (log (snd (_ensure_schema_exists E st)) ++ evs)%list
      /\ forallb (fun e => negb (is_create_schema_event E (cache (self st)) e))
                 evs = true.
Proof.
  intros cs st Hok.
  destruct (_ensure_schema_exists E st) as [r st1] eqn:Hrun. cbn [fst snd] in *.
  subst r.
  pose proof (ensure_schema_exists_ok_sets_memo _ _ _ Hrun) as Hmemo.
  pose proof (proj1 (ensure_schema_exists_log _ _ _ _ Hrun)) as Hcache.
  destruct (evolves_run_calls cs st1) as (_ & _ & _ & evs & Hl & Hs & _).
  exists evs. split; [exact Hl|]. rewrite <- Hcache. exact (Hs Hmemo).
Qed.

(** X6.  Once a call of [_get_credentials] has returned credentials, no later
    sequence of method calls goes to a credential source again, and the
    instance still holds the same credentials afterwards. *)
Theorem credentials_resolved_at_most_once_after_success :
  forall (cs : list MethodCall) st (c : Credentials E),
    fst (_get_credentials E st) = Ok c ->
    _credentials (self (run_calls E cs (snd (_get_credentials E st)))) = Some c
    /\ exists evs,
         log (run_calls E cs (snd (_get_credentials E st)))
         = (log (snd (_get_credentials E st)) ++ evs)%list
         /\ forallb (fun e => negb (is_credential_event E e)) evs = true.
Proof.
  intros cs st c Hok.
  assert (Hc : _credentials (self (snd (_get_credentials E st))) = Some c).
  { destruct (get_credentials_step st)
      as [(c0 & Hc0 & Hrun)|(_ & e & w & _ & [(c0 & Hrun)|(ex & Hrun)])];
      rewrite Hrun in Hok |- *; cbn [fst snd] in *;
      try discriminate; injection Hok as ->; [exact Hc0 | reflexivity]. }
  destruct (evolves_run_calls cs (snd (_get_credentials E st)))
    as (_ & _ & Hk & evs & Hl & _ & Hr).
  split; [exact (Hk c Hc)|].
  exists evs. split; [exact Hl|]. apply Hr. rewrite Hc. discriminate.
Qed.

(** *** Credentials and table lookup *)

(** X7.  A credential resolution that raises stores nothing: the instance
    fields are as before, and the next call goes to the same credential
    source again. *)
Theorem get_credentials_failure_is_retried :
  forall st ex st1,
    _get_credentials E st = (Raise ex, st1) ->
    self st1 = self st
    /\ _credentials (self st1) = None
    /\ exists e : Event E,
         is_credential_event E e = true
         /\ log st1 = (log st ++ [e])%list
         /\ log (snd (_get_credentials E st1)) = (log st ++ [e; e])%list.
Proof.
  intros st ex st1.
  unfold _get_credentials, bind, get_self, call, put_self, ret.
  destruct (_credentials (self st)) as [c0|] eqn:Hcur; [discriminate|].
  destruct (truthy_str (credentials_path (cache (self st)))) eqn:Hp.
  - destruct (from_service_account_file E _ (world st)) as [[c1|ex1] w];
      [discriminate|].
    intros [= <- <-]. cbn [self world log]. rewrite Hcur, Hp.
    split; [reflexivity|]. split; [reflexivity|].
    refine (ex_intro _ _ (conj _ (conj eq_refl _))); [reflexivity|].
    cbn [self world log].
    destruct (from_service_account_file E _ w) as [[c2|ex2] w2];
      cbn [snd log]; rewrite <- app_assoc; reflexivity.
  - destruct (google_auth_default E (world st)) as [[[c1 proj]|ex1] w];
      [discriminate|].
    intros [= <- <-]. cbn [self world log]. rewrite Hcur, Hp.
    split; [reflexivity|]. split; [reflexivity|].
    exists EvAuthDefault.
    split; [reflexivity|]. split; [reflexivity|].
    cbn [self world log].
    destruct (google_auth_default E w) as [[[c2 proj2]|ex2] w2];
      cbn [snd log]; rewrite <- app_assoc; reflexivity.
Qed.

(** X8.  [_table_exists] makes one [get_table] call and reads its outcome:
    a normal return means [True]; [NotFound] means [False] and is not raised;
    [ValueError] becomes a [PyAirbyteInputError] whose context names the
    table id and the table name; any other exception is passed on as it is.
    Only the lookup is guarded: an exception raised while the credentials are
    resolved leaves the method whatever its class (a [NotFound] there is not
    read as a missing table), and no lookup is made. *)
Theorem table_exists_classifies_lookup_outcome :
  forall st (table_name : string),
    (forall ex st1,
        _get_credentials E st = (Raise ex, st1) ->
        _table_exists E table_name st = (Raise ex, st1))
    /\ (forall (c : Credentials E) st1 r (w : World E),
           _get_credentials E st = (Ok c, st1) ->
           client_get_table E c (table_id_of (cache (self st)) table_name)
             (world st1) = (r, w) ->
           snd (_table_exists E table_name st)
           = mkSt (self st1) w
               (log st1
                  ++ [EvGetTable (table_id_of (cache (self st)) table_name)])
           /\ match r with
              | Ok _ => fst (_table_exists E table_name st) = Ok true
              | Raise ex =>
                  (exn_class ex = NotFound ->
                   fst (_table_exists E table_name st) = Ok false)
                  /\ (exn_class ex = ValueError ->
                      exists ex',
                        fst (_table_exists E table_name st) = Raise ex'
                        /\ exn_class ex' = PyAirbyteInputError
                        /\ In ("table_id",
                               table_id_of (cache (self st)) table_name)
                              (exn_context ex')
                        /\ In ("table_name", table_name) (exn_context ex'))
                  /\ (exn_class ex <> NotFound ->
                      exn_class ex <> ValueError ->
                      fst (_table_exists E table_name st) = Raise ex)
              end).
Proof.
  intros st table_name. split.
  - intros ex st1 Hc. unfold _table_exists, bind. rewrite Hc. reflexivity.
  - intros c st1 r w Hc Hget.
    pose proof (proj1 (get_credentials_log _ _ _ _ Hc)) as Hcache.
    unfold _table_exists, bind, get_self, try_except, call, ret, raise.
    rewrite Hc, Hcache, Hget.
    destruct r as [u|ex]; cbn [fst snd]; [auto|].
    destruct (exn_class ex) eqn:Hcls; cbn [fst snd];
      (split; [reflexivity|]);
      (split; [intros; try discriminate; try reflexivity|]);
      (split; [intros; try discriminate|intros; try contradiction;
                                         try reflexivity]).
    eexists. split; [reflexivity|]. split; [reflexivity|].
    cbn [exn_context In]. auto.
Qed.

(** *** Namespace creation and swap, by content *)

(** X9.  When the creation command raises, the call returns normally exactly
    when the exception text has the form [before ++ "already exists" ++
    after], letters in exactly this case. *)
Theorem ensure_schema_exists_swallows_iff_text_contains :
  forall st ex (w : World E),
    truthy_bool (_schema_exists (self st)) = false ->
    execute_sql E (create_schema_sql (cache (self st))) (world st)
      = (Raise ex, w) ->
    (fst (_ensure_schema_exists E st) = Ok tt
     <-> exists before after : string,
           exn_str ex = before ++ "already exists" ++ after).
Proof.
  intros st ex w Hmemo Hraise.
  rewrite ensure_schema_exists_unfold, Hmemo, Hraise, <- py_in_iff.
  destruct (py_in "already exists" (exn_str ex)); cbn [fst];
    split; auto; discriminate.
Qed.

(** X10.  For every pair of names, the one script a swap submits contains the
    rename of the final table to [<final>_deleteme], the rename to the final
    name, and the drop of the fully qualified [<final>_deleteme]. *)
Theorem swap_script_always_renames_away_and_drops :
  forall st (stream_name temp final : string),
    exists sql : string,
      log (snd (_swap_temp_table_with_final_table E stream_name
                  (Some temp) (Some final) st))
      = (log st ++ [EvExecuteSql sql])%list
      /\ py_in ("ALTER TABLE " ++ _fully_qualified (cache (self st)) final
                  ++ " RENAME TO " ++ final ++ "_deleteme;") sql = true
      /\ py_in ("ALTER TABLE " ++ _fully_qualified (cache (self st)) temp
                  ++ " RENAME TO " ++ final ++ ";") sql = true
      /\ py_in ("DROP TABLE "
                  ++ _fully_qualified (cache (self st)) (final ++ "_deleteme")
                  ++ ";") sql = true
      /\ skips_rename_away_and_drop E [EvExecuteSql sql] = false.
Proof.
  intros st stream_name temp final.
  exists (swap_script (cache (self st)) temp final).
  split.
  { unfold _swap_temp_table_with_final_table, bind, get_self, _execute_sql, call.
    rewrite swap_commands_joined.
    destruct (execute_sql E _ (world st)); reflexivity. }
  set (c := cache (self st)).
  assert (H1 : swap_script c temp final
               = EmptyString
                 ++ ("ALTER TABLE " ++ _fully_qualified c final
                       ++ " RENAME TO " ++ final ++ "_deleteme;")
                 ++ (nl ++ "ALTER TABLE " ++ _fully_qualified c temp
                       ++ " RENAME TO " ++ final ++ ";" ++ nl
                       ++ "DROP TABLE "
                       ++ _fully_qualified c (final ++ "_deleteme") ++ ";")).
  { unfold swap_script, _fully_qualified.
    repeat (rewrite ?append_assoc; cbn [append]). reflexivity. }
  assert (H2 : swap_script c temp final
               = ("ALTER TABLE " ++ _fully_qualified c final
                    ++ " RENAME TO " ++ final ++ "_deleteme;" ++ nl)
                 ++ ("ALTER TABLE " ++ _fully_qualified c temp
                       ++ " RENAME TO " ++ final ++ ";")
                 ++ (nl ++ "DROP TABLE "
                       ++ _fully_qualified c (final ++ "_deleteme") ++ ";")).
  { unfold swap_script, _fully_qualified.
    repeat (rewrite ?append_assoc; cbn [append]). reflexivity. }
  assert (H3 : swap_script c temp final
               = ("ALTER TABLE " ++ _fully_qualified c final
                    ++ " RENAME TO " ++ final ++ "_deleteme;" ++ nl
                    ++ "ALTER TABLE " ++ _fully_qualified c temp
                    ++ " RENAME TO " ++ final ++ ";" ++ nl)
                 ++ ("DROP TABLE "
                       ++ _fully_qualified c (final ++ "_deleteme") ++ ";")
                 ++ EmptyString).
  { unfold swap_script, _fully_qualified.
    repeat (rewrite ?append_assoc; cbn [append]). reflexivity. }
  assert (Hdrop : py_in "DROP TABLE" (swap_script c temp final) = true).
  { rewrite H3. apply py_in_app_r, py_in_hit. reflexivity. }
  split; [apply py_in_iff; eexists; eexists; exact H1|].
  split; [apply py_in_iff; eexists; eexists; exact H2|].
  split; [apply py_in_iff; eexists; eexists; exact H3|].
  cbn [skips_rename_away_and_drop forallb]. rewrite Hdrop.
  rewrite andb_false_r. reflexivity.
Qed.

(** *** The load loop, by counting *)

Lemma load_protocol_counts dest cfg (files : list string) evs b :
  load_protocol E dest cfg files evs b ->
  count_events E (is_close E) evs = count_events E (is_submit E) evs
  /\ count_events E (is_returned_wait E) evs <= count_events E (is_submit E) evs
  /\ count_events E (is_submit E) evs <= count_events E (is_open E) evs
  /\ count_events E (is_open E) evs <= List.length files
  /\ (b = true ->
      count_events E (is_returned_wait E) evs = List.length files
      /\ count_events E (is_submit E) evs = List.length files
      /\ count_events E (is_open E) evs = List.length files).
Proof.
  unfold count_events.
  induction 1 as [|f fs|f fs|f fs j|f fs j evs b _ (H1 & H2 & H3 & H4 & H5)];
    cbn [filter is_close is_submit is_open is_returned_wait List.length].
  - repeat split; auto.
  - repeat split; try discriminate; lia.
  - repeat split; try discriminate; lia.
  - repeat split; try discriminate; lia.
  - split; [lia|]. split; [lia|]. split; [lia|]. split; [lia|].
    intros Hb. destruct (H5 Hb) as (? & ? & ?). lia.
Qed.

Lemma load_protocol_only_load_events dest cfg (files : list string) evs b :
  load_protocol E dest cfg files evs b ->
  forallb (is_load_event E) evs = true.
Proof. induction 1; cbn; auto. Qed.

Lemma load_protocol_nil dest cfg evs b :
  load_protocol E dest cfg [] evs b -> evs = [] /\ b = true.
Proof. inversion 1; auto. Qed.

(** The calls of one [_write_files_to_new_table]: the table creation, then
    at most one credential lookup, then the load loop. *)
Lemma write_files_shape (files : list string) (stream_name batch_id : string)
    st r st' :
  _write_files_to_new_table E files stream_name batch_id st = (r, st') ->
  _schema_exists (self st') = _schema_exists (self st)
  /\ (returned r = true -> _credentials (self st') <> None)
  /\ exists cevs levs : list (Event E),
       log st'
       = (log st ++ EvCreateTableForLoading stream_name batch_id
            :: cevs ++ levs)%list
       /\ forallb (is_credential_event E) cevs = true
       /\ ((returned r = false /\ levs = [])
           \/ exists name,
                fst (create_table_for_loading E stream_name batch_id (world st))
                = Ok name
                /\ (returned r = true -> r = Ok name)
                /\ load_protocol E (table_id_of (cache (self st)) name)
                     (load_job_config E stream_name) files levs (returned r)).
Proof.
  unfold _write_files_to_new_table, bind, _create_table_for_loading, call,
    get_self, ret.
  destruct (create_table_for_loading E stream_name batch_id (world st))
    as [[name|ex] w]; cbn [fst self].
  2:{ intros [= <- <-]. cbn [self log returned].
      split; [reflexivity|]. split; [discriminate|].
      exists [], []. auto. }
  set (st0 := mkSt (self st) w
                   (log st ++ [EvCreateTableForLoading stream_name batch_id])).
  destruct (get_credentials_step st0)
    as [(c & Hc & Hrun)|(Hnone & e & w1 & He & [(c & Hrun)|(ex & Hrun)])];
    rewrite Hrun.
  - destruct (load_files E c _ stream_name files st0) as [r0 st2] eqn:Hf.
    destruct (load_files_protocol _ _ _ _ _ _ _ _ Hf) as (Hs & evs & Hl & Hp).
    intros Hres.
    assert (Hst : st' = st2 /\ returned r = returned r0
                  /\ (returned r = true -> r = Ok name)).
    { destruct r0; injection Hres as <- <-; cbn [returned];
      repeat split; auto; discriminate. }
    destruct Hst as (-> & Hret & Hname). rewrite Hs. subst st0. cbn [self].
    split; [reflexivity|]. split; [intros _; cbn [self] in Hc; congruence|].
    exists [], evs. split; [rewrite Hl; cbn [log]; rewrite <- app_assoc;
                            reflexivity|].
    split; [reflexivity|]. right. exists name.
    split; [reflexivity|]. split; [exact Hname|]. rewrite Hret. exact Hp.
  - set (st1 := mkSt (with_credentials c (self st0)) w1 (log st0 ++ [e])).
    destruct (load_files E c _ stream_name files st1) as [r0 st2] eqn:Hf.
    destruct (load_files_protocol _ _ _ _ _ _ _ _ Hf) as (Hs & evs & Hl & Hp).
    intros Hres.
    assert (Hst : st' = st2 /\ returned r = returned r0
                  /\ (returned r = true -> r = Ok name)).
    { destruct r0; injection Hres as <- <-; cbn [returned];
      repeat split; auto; discriminate. }
    destruct Hst as (-> & Hret & Hname). rewrite Hs. subst st1 st0.
    cbn [self with_credentials _schema_exists _credentials].
    split; [reflexivity|]. split; [discriminate|].
    exists [e], evs. split.
    + rewrite Hl. cbn [log]. rewrite <- !app_assoc. reflexivity.
    + split; [cbn; rewrite He; reflexivity|].
      right. exists name.
      split; [reflexivity|]. split; [exact Hname|]. rewrite Hret. exact Hp.
  - intros [= <- <-]. subst st0. cbn [self log returned].
    split; [reflexivity|]. split; [discriminate|].
    exists [e], []. split; [rewrite <- app_assoc; reflexivity|].
    split; [cbn; rewrite He; reflexivity|]. left. auto.
Qed.

Lemma credential_events_count (p : Event E -> bool) (cevs : list (Event E)) :
  (forall e, is_credential_event E e = true -> p e = false) ->
  forallb (is_credential_event E) cevs = true ->
  filter p cevs = [].
Proof.
  intros Hp. induction cevs as [|e cevs IH]; cbn; [reflexivity|].
  intros H. apply andb_prop in H as [He Hr]. rewrite (Hp e He). auto.
Qed.

(** X12.  In every run of [_write_files_to_new_table], exactly the files
    handed to a submission are closed again (also when the submission
    raised), no more jobs are awaited than were submitted, and no more files
    are opened than were given; when the method returns the table name, one
    job per file was submitted and its wait returned. *)
Theorem write_files_closes_what_it_submits :
  forall (files : list string) (stream_name batch_id : string) st,
    exists evs : list (Event E),
      log (snd (_write_files_to_new_table E files stream_name batch_id st))
      = (log st ++ evs)%list
      /\ count_events E (is_close E) evs = count_events E (is_submit E) evs
      /\ count_events E (is_returned_wait E) evs
         <= count_events E (is_submit E) evs
      /\ count_events E (is_submit E) evs <= count_events E (is_open E) evs
      /\ count_events E (is_open E) evs <= List.length files
      /\ (returned (fst (_write_files_to_new_table E files stream_name
                           batch_id st)) = true ->
          count_events E (is_returned_wait E) evs = List.length files
          /\ count_events E (is_submit E) evs = List.length files
          /\ count_events E (is_open E) evs = List.length files).
Proof.
  intros files stream_name batch_id st.
  destruct (_write_files_to_new_table E files stream_name batch_id st)
    as [r st'] eqn:Hrun.
  destruct (write_files_shape _ _ _ _ _ _ Hrun)
    as (_ & _ & cevs & levs & Hl & Hc & Hshape).
  cbn [fst snd]. eexists. split; [exact Hl|].
  assert (Hcnt : forall p : Event E -> bool,
             p (EvCreateTableForLoading stream_name batch_id) = false ->
             (forall e, is_credential_event E e = true -> p e = false) ->
             count_events E p (EvCreateTableForLoading stream_name batch_id
                                 :: cevs ++ levs)
             = count_events E p levs).
  { intros p Hp0 Hp. unfold count_events. cbn [filter]. rewrite Hp0.
    rewrite filter_app, (credential_events_count p cevs Hp Hc). reflexivity. }
  rewrite !Hcnt;
    try reflexivity; try (intros e He; destruct e; try discriminate; reflexivity).
  destruct Hshape as [(Hr & ->)|(name & _ & _ & Hp)].
  - rewrite Hr. unfold count_events. cbn. repeat split; try lia; discriminate.
  - exact (load_protocol_counts _ _ _ _ _ Hp).
Qed.

(** X13.  With an empty list of files the staging table is still created and
    the credentials are still looked up if none are cached, but no file is
    opened and no job is submitted; and if both steps succeed the name of the
    created table is returned. *)
Theorem write_files_with_no_files :
  forall (stream_name batch_id : string) st,
    exists cevs : list (Event E),
      log (snd (_write_files_to_new_table E [] stream_name batch_id st))
      = (log st ++ EvCreateTableForLoading stream_name batch_id :: cevs)%list
      /\ forallb (is_credential_event E) cevs = true
      /\ (forall name (w : World E) (c : Credentials E) st1,
             create_table_for_loading E stream_name batch_id (world st)
             = (Ok name, w) ->
             _get_credentials E
               (mkSt (self st) w
                     (log st ++ [EvCreateTableForLoading stream_name batch_id]))
             = (Ok c, st1) ->
             _write_files_to_new_table E [] stream_name batch_id st
             = (Ok name, st1)).
Proof.
  intros stream_name batch_id st.
  destruct (_write_files_to_new_table E [] stream_name batch_id st)
    as [r st'] eqn:Hrun.
  destruct (write_files_shape _ _ _ _ _ _ Hrun)
    as (_ & _ & cevs & levs & Hl & Hc & Hshape).
  assert (Hlevs : levs = []).
  { destruct Hshape as [(_ & H)|(name & _ & _ & Hp)]; [exact H|].
    exact (proj1 (load_protocol_nil _ _ _ _ Hp)). }
  subst levs. rewrite app_nil_r in Hl.
  exists cevs. cbn [snd]. split; [exact Hl|]. split; [exact Hc|].
  intros name w c st1 Hcreate Hcreds. rewrite <- Hrun.
  unfold _write_files_to_new_table, bind, _create_table_for_loading, call,
    get_self, ret.
  rewrite Hcreate, Hcreds. reflexivity.
Qed.

(** X14.  [_write_files_to_new_table] never hands SQL to [_execute_sql] and
    never looks a table up: all it does is create the staging table, look up
    credentials and run load events.  It leaves the schema memo as it was,
    and when it returns the table name the credentials are cached. *)
Theorem write_files_footprint :
  forall (files : list string) (stream_name batch_id : string) st,
    _schema_exists
      (self (snd (_write_files_to_new_table E files stream_name batch_id st)))
    = _schema_exists (self st)
    /\ (returned (fst (_write_files_to_new_table E files stream_name
                         batch_id st)) = true ->
        _credentials
          (self (snd (_write_files_to_new_table E files stream_name
                        batch_id st)))
        <> None)
    /\ exists evs : list (Event E),
         log (snd (_write_files_to_new_table E files stream_name batch_id st))
         = (log st ++ evs)%list
         /\ forallb (fun e => is_create_table_event E e
                              || is_credential_event E e
                              || is_load_event E e) evs = true
         /\ count_events E (is_create_table_event E) evs = 1.
Proof.
  intros files stream_name batch_id st.
  destruct (_write_files_to_new_table E files stream_name batch_id st)
    as [r st'] eqn:Hrun.
  destruct (write_files_shape _ _ _ _ _ _ Hrun)
    as (Hmemo & Hcred & cevs & levs & Hl & Hc & Hshape).
  cbn [fst snd]. split; [exact Hmemo|]. split; [exact Hcred|].
  eexists. split; [exact Hl|].
  assert (Hlev : forallb (is_load_event E) levs = true).
  { destruct Hshape as [(_ & ->)|(name & _ & _ & Hp)]; [reflexivity|].
    exact (load_protocol_only_load_events _ _ _ _ _ Hp). }
  split.
  - cbn [forallb is_create_table_event orb andb]. rewrite forallb_app.
    apply andb_true_intro. split; apply forallb_forall; intros e He.
    + rewrite forallb_forall in Hc. rewrite (Hc e He).
      destruct (is_create_table_event E e); reflexivity.
    + rewrite forallb_forall in Hlev. rewrite (Hlev e He).
      apply orb_true_r.
  - unfold count_events. cbn [filter is_create_table_event List.length].
    rewrite filter_app.
    rewrite (credential_events_count (is_create_table_event E) cevs);
      [|intros e He; destruct e; try discriminate; reflexivity | exact Hc].
    cbn [app].
    assert (Hnone : filter (is_create_table_event E) levs = []).
    { clear - Hlev. induction levs as [|e l IH]; cbn; [reflexivity|].
      cbn in Hlev. apply andb_prop in Hlev as [He Hr].
      destruct e; try discriminate; cbn; auto. }
    rewrite Hnone. reflexivity.
Qed.

End MoreCorrectness.

(** *** The further properties at work on the scripted warehouse *)

Lemma quote_identifier_equal_iff_lower_equal_witness :
  _quote_identifier "Users" = _quote_identifier "USERS".
Proof.
  apply (proj2 (quote_identifier_equal_iff_lower_equal "Users" "USERS")).
  reflexivity.
Defined.

Lemma instance_state_only_gains_witness :
  _credentials
    (self (run_calls Mock.env Mock.some_calls
             (snd (_get_credentials Mock.env Mock.keyed_state))))
  = Some "service-account:/secrets/key.json".
Proof.
  apply (instance_state_only_gains Mock.env Mock.some_calls
           (snd (_get_credentials Mock.env Mock.keyed_state))).
  reflexivity.
Defined.

Lemma schema_created_at_most_once_after_success_witness :
  exists evs,
    log (run_calls Mock.env Mock.some_calls
           (snd (_ensure_schema_exists Mock.env Mock.duplicate_state)))
    = (log (snd (_ensure_schema_exists Mock.env Mock.duplicate_state))
         ++ evs)%list
    /\ forallb
         (fun e => negb (is_create_schema_event Mock.env
                           (cache (self Mock.duplicate_state)) e))
         evs = true.
Proof.
  apply (schema_created_at_most_once_after_success Mock.env Mock.some_calls
           Mock.duplicate_state).
  reflexivity.
Defined.

Lemma credentials_resolved_at_most_once_after_success_witness :
  _credentials
    (self (run_calls Mock.env Mock.some_calls
             (snd (_get_credentials Mock.env Mock.first_load_state))))
  = Some "ambient"
  /\ exists evs,
       log (run_calls Mock.env Mock.some_calls
              (snd (_get_credentials Mock.env Mock.first_load_state)))
       = (log (snd (_get_credentials Mock.env Mock.first_load_state))
            ++ evs)%list
       /\ forallb (fun e => negb (is_credential_event Mock.env e)) evs = true.
Proof.
  apply (credentials_resolved_at_most_once_after_success Mock.env
           Mock.some_calls Mock.first_load_state "ambient").
  reflexivity.
Defined.

Lemma get_credentials_failure_is_retried_witness :
  log (snd (_get_credentials Mock.env_without_credentials
              (snd (_get_credentials Mock.env_without_credentials
                      Mock.stranded_state))))
  = [EvAuthDefault; EvAuthDefault].
Proof.
  destruct (get_credentials_failure_is_retried Mock.env_without_credentials
              Mock.stranded_state Mock.unreachable_error
              (snd (_get_credentials Mock.env_without_credentials
                      Mock.stranded_state))
              eq_refl) as (_ & _ & e & _ & Hfirst & Hsecond).
  injection Hfirst as <-. exact Hsecond.
Defined.

Lemma table_exists_classifies_lookup_outcome_witness :
  fst (_table_exists Mock.env "users" Mock.first_load_state) = Ok false
  /\ _table_exists Mock.env_without_credentials "users" Mock.stranded_state
     = (Raise Mock.unreachable_error,
        snd (_get_credentials Mock.env_without_credentials
               Mock.stranded_state)).
Proof.
  split.
  - destruct (proj2 (table_exists_classifies_lookup_outcome Mock.env
                       Mock.first_load_state "users")
                "ambient"
                (snd (_get_credentials Mock.env Mock.first_load_state))
                (Raise (mkExn NotFound
                          "Not found: Table my-project.airbyte_raw.users" []))
                Mock.empty_world eq_refl eq_refl) as (_ & Hnot_found & _).
    apply Hnot_found. reflexivity.
  - apply (proj1 (table_exists_classifies_lookup_outcome
                    Mock.env_without_credentials Mock.stranded_state "users")).
    reflexivity.
Defined.

Lemma ensure_schema_exists_swallows_iff_text_contains_witness :
  fst (_ensure_schema_exists Mock.env Mock.duplicate_state) = Ok tt.
Proof.
  apply (proj2 (ensure_schema_exists_swallows_iff_text_contains Mock.env
                  Mock.duplicate_state Mock.duplicate_error Mock.empty_world
                  eq_refl eq_refl)).
  exists "Dataset my-project:airbyte_raw ", "". reflexivity.
Defined.

(** X15.  Whenever [_ensure_schema_exists] returns, the only field that can
    have changed is the memo, which is now [True]; whenever it raises, no
    field has changed and the memo was not set before the call. *)
Theorem ensure_schema_exists_postcondition :
  forall (E : Env) (st : St E),
    match fst (_ensure_schema_exists E st) with
    | Ok _ => self (snd (_ensure_schema_exists E st)) = memo_set (self st)
    | Raise _ =>
        self (snd (_ensure_schema_exists E st)) = self st
        /\ truthy_bool (_schema_exists (self st)) = false
    end.
Proof.
  intros E st. rewrite ensure_schema_exists_unfold.
  destruct (truthy_bool (_schema_exists (self st))) eqn:Hmemo.
  - cbn [fst snd]. unfold memo_set.
    destruct (self st) as [c k [[|]|]]; try discriminate. reflexivity.
  - destruct (execute_sql E _ (world st)) as [[u|ex] w]; cbn [fst snd];
      [reflexivity|].
    destruct (py_in "already exists" (exn_str ex)); cbn [fst snd self];
      auto.
Qed.

Lemma write_files_loads_in_order_waiting_for_each_witness :
  exists (evs : list (Event Mock.env)) (w' : Mock.MockWorld) (r : Result unit),
    load_run Mock.env "service-account:/secrets/key.json"
      "my-project.airbyte_raw.users_b2" (load_job_config Mock.env "users")
      Mock.empty_world ["a.jsonl"; "b.jsonl"] evs w' r
    /\ (forall evs2 w2 r2,
           load_run Mock.env "service-account:/secrets/key.json"
             "my-project.airbyte_raw.users_b2" (load_job_config Mock.env "users")
             Mock.empty_world ["a.jsonl"; "b.jsonl"] evs2 w2 r2 ->
           evs2 = evs /\ w2 = w' /\ r2 = r)
    /\ _write_files_to_new_table Mock.env ["a.jsonl"; "b.jsonl"] "users" "b2"
         Mock.keyed_state
       = (match r with Ok _ => Ok "users_b2" | Raise ex => Raise ex end,
          mkSt (@with_credentials Mock.env "service-account:/secrets/key.json"
                  (self Mock.keyed_state))
               w'
               ([EvCreateTableForLoading "users" "b2";
                 EvFromServiceAccountFile "/secrets/key.json"] ++ evs)).
Proof.
  exact (write_files_loads_in_order_waiting_for_each Mock.env
           ["a.jsonl"; "b.jsonl"] "users" "b2" Mock.keyed_state).
Defined.

(** The run of the theorem above, written out: both files are opened,
    submitted, closed and awaited, in order, and the name is returned. *)
Lemma write_files_run_on_two_files :
  fst (_write_files_to_new_table Mock.env ["a.jsonl"; "b.jsonl"] "users" "b2"
         Mock.keyed_state) = Ok "users_b2"
  /\ log (snd (_write_files_to_new_table Mock.env ["a.jsonl"; "b.jsonl"]
                 "users" "b2" Mock.keyed_state))
     = [EvCreateTableForLoading "users" "b2";
        EvFromServiceAccountFile "/secrets/key.json";
        EvOpen "a.jsonl";
        EvLoadTableFromFile (E := Mock.env) "a.jsonl" "my-project.airbyte_raw.users_b2"
          (load_job_config Mock.env "users") (Some 0);
        EvClose "a.jsonl";
        EvJobResult (E := Mock.env) 0 true;
        EvOpen "b.jsonl";
        EvLoadTableFromFile (E := Mock.env) "b.jsonl" "my-project.airbyte_raw.users_b2"
          (load_job_config Mock.env "users") (Some 1);
        EvClose "b.jsonl";
        EvJobResult (E := Mock.env) 1 true].
Proof. split; reflexivity. Qed.
